(** * pubTill: the pricing engine and the basket of the pub till

    A shallow embedding of the pricing core of [src/src/App.jsx]
    ([bestLineTotalWithDeals], [resolveUnitsAndPrices], the basket
    operations) and of the second copy of [bestLineTotalWithDeals] kept in
    [src/unnamed/part_000], with the properties the specification states
    about them.

    JavaScript values are modelled as far as the till's data can reach them:
    what [JSON.parse] produces (the configuration is imported JSON), plus
    [undefined] and the non-finite numbers.  Finite numbers are integers
    (money is stored as integer pence), on which the double arithmetic of
    the source is exact below 2^53; fractions, which [Number.isFinite]
    accepts as well, are outside the model; negative zero is identified
    with zero.  The data holds no function: an object is converted to a
    primitive by the methods it inherits, unless an entry of its own hides
    them, and the conversion then throws. *)

From Stdlib Require Import ZArith Lia List String Ascii DecimalString.
From stdpp Require Import base option list strings gmap.

#[local] Set Warnings "-register-all".

Local Open Scope string_scope.
Local Open Scope Z_scope.
Local Open Scope list_scope.

(** ** Numbers *)

Inductive number : Type :=
| NaN
| PosInf
| NegInf
| Finite (z : Z).

Definition infinity (negative : bool) : number :=
  if negative then NegInf else PosInf.

(** [a * b] *)
Definition num_mul (a b : number) : number :=
  match a, b with
  | NaN, _ | _, NaN => NaN
  | Finite x, Finite y => Finite (x * y)
  | Finite x, PosInf | PosInf, Finite x =>
      if x =? 0 then NaN else infinity (x <? 0)
  | Finite x, NegInf | NegInf, Finite x =>
      if x =? 0 then NaN else infinity (0 <? x)
  | PosInf, PosInf | NegInf, NegInf => PosInf
  | PosInf, NegInf | NegInf, PosInf => NegInf
  end.

(** [a + b] *)
Definition num_add (a b : number) : number :=
  match a, b with
  | NaN, _ | _, NaN => NaN
  | Finite x, Finite y => Finite (x + y)
  | PosInf, NegInf | NegInf, PosInf => NaN
  | PosInf, _ | _, PosInf => PosInf
  | NegInf, _ | _, NegInf => NegInf
  end.

(** [Math.floor(a / b)]: the quotient of two integers need not be one, so
    the division and the rounding towards minus infinity are one step. *)
Definition Math_floor_div (a b : number) : number :=
  match a, b with
  | NaN, _ | _, NaN => NaN
  | Finite x, Finite y =>
      if y =? 0
      then (if x =? 0 then NaN else infinity (x <? 0))
      else Finite (x / y)
  | Finite _, (PosInf | NegInf) => Finite 0
  | PosInf, Finite y => infinity (y <? 0)
  | NegInf, Finite y => infinity (0 <=? y)
  | (PosInf | NegInf), (PosInf | NegInf) => NaN
  end.

(** [a % b]: the remainder takes the sign of the dividend. *)
Definition num_rem (a b : number) : number :=
  match a, b with
  | NaN, _ | _, NaN => NaN
  | (PosInf | NegInf), _ => NaN
  | Finite x, (PosInf | NegInf) => Finite x
  | Finite x, Finite y => if y =? 0 then NaN else Finite (Z.rem x y)
  end.

(** [a < b] *)
Definition num_lt (a b : number) : bool :=
  match a, b with
  | NaN, _ | _, NaN => false
  | Finite x, Finite y => x <? y
  | NegInf, NegInf => false
  | NegInf, _ => true
  | _, NegInf => false
  | PosInf, _ => false
  | Finite _, PosInf => true
  end.

(** [a <= b]: [!(b < a)], except that a NaN operand gives [false]. *)
Definition num_le (a b : number) : bool :=
  match a, b with
  | NaN, _ | _, NaN => false
  | _, _ => negb (num_lt b a)
  end.

Definition num_gt (a b : number) : bool := num_lt b a.
Definition num_ge (a b : number) : bool := num_le b a.

(** [a === b] on two numbers. *)
Definition num_eq (a b : number) : bool :=
  match a, b with
  | Finite x, Finite y => x =? y
  | PosInf, PosInf | NegInf, NegInf => true
  | _, _ => false
  end.

(** The decimal digits of an integer, with a minus sign when negative. *)
Definition decimal (z : Z) : string := NilZero.string_of_int (Z.to_int z).

(** Number to string, as a template literal does it.  The decimal form is
    the one JavaScript prints below 10^21. *)
Definition NumberToString (n : number) : string :=
  match n with
  | NaN => "NaN"
  | PosInf => "Infinity"
  | NegInf => "-Infinity"
  | Finite z => decimal z
  end.

(** ** Values *)

Inductive JsVal : Type :=
| JUndefined
| JNull
| JBool (b : bool)
| JNum (n : number)
| JStr (s : string)
| JArr (elems : list JsVal)
| JObj (props : list (string * JsVal)).

Definition ToBoolean (v : JsVal) : bool :=
  match v with
  | JUndefined | JNull => false
  | JBool b => b
  | JNum NaN => false
  | JNum (Finite z) => negb (z =? 0)
  | JNum _ => true
  | JStr s => negb (String.eqb s "")
  | JArr _ | JObj _ => true
  end.

(** ** Completions: a value, or a thrown [TypeError] *)

Inductive Completion (A : Type) : Type :=
| Normal (a : A)
| Throw_TypeError.
Arguments Normal {A} a.
Arguments Throw_TypeError {A}.

#[global] Instance Completion_ret : MRet Completion := fun A a => Normal a.

#[global] Instance Completion_bind : MBind Completion := fun A B k c =>
  match c with
  | Normal a => k a
  | Throw_TypeError => Throw_TypeError
  end.

Fixpoint lookup_prop (k : string) (props : list (string * JsVal)) : JsVal :=
  match props with
  | [] => JUndefined
  | (k', v) :: rest => if String.eqb k' k then v else lookup_prop k rest
  end.

(** Whether an object has an own property [k], whatever it holds. *)
Definition has_own (k : string) (props : list (string * JsVal)) : bool :=
  existsb (fun kv => String.eqb (fst kv) k) props.

(** [String(v)], the conversion a template literal makes.  An array is
    joined ([Array.prototype.join]: [null] and [undefined] elements print as
    the empty string, the others are converted in turn).  An object is
    converted by [OrdinaryToPrimitive]: the data holds no function, so an
    own [toString] is not callable and hides [Object.prototype.toString];
    [valueOf], own or inherited, yields no primitive either, and the
    conversion throws a [TypeError].  Without an own [toString] the
    inherited one gives ["[object Object]"]. *)
Fixpoint ToString (v : JsVal) : Completion string :=
  match v with
  | JUndefined => Normal "undefined"
  | JNull => Normal "null"
  | JBool true => Normal "true"
  | JBool false => Normal "false"
  | JNum n => Normal (NumberToString n)
  | JStr s => Normal s
  | JArr l =>
      strs ← (fix join (l : list JsVal) : Completion (list string) :=
                match l with
                | [] => Normal []
                | e :: rest =>
                    str ← match e with
                          | JUndefined | JNull => Normal ""
                          | _ => ToString e
                          end;
                    strs ← join rest;
                    Normal (str :: strs)
                end) l;
      Normal (String.concat "," strs)
  | JObj props =>
      if has_own "toString" props then Throw_TypeError
      else Normal "[object Object]"
  end.

(** What the JavaScript runtime supplies and the repository does not define:
    the conversion of a string to a number, and the currency formatter
    [GBP = new Intl.NumberFormat("en-GB", ...)].  [GBP_format_pence x]
    stands for [GBP.format(x / 100)]. *)
Class JsRuntime : Type := {
  StringToNumber : string -> number;
  GBP_format_pence : number -> string
}.

Section Coercions.
Context `{rt : JsRuntime}.

(** [Number(v)], the conversion the arithmetic and the comparisons make:
    objects and arrays go through their primitive, which is their string
    form or a [TypeError]. *)
Definition ToNumber (v : JsVal) : Completion number :=
  match v with
  | JUndefined => Normal NaN
  | JNull => Normal (Finite 0)
  | JBool b => Normal (Finite (if b then 1 else 0))
  | JNum n => Normal n
  | JStr s => Normal (StringToNumber s)
  | JArr _ | JObj _ => str ← ToString v; Normal (StringToNumber str)
  end.

(** [a > b] and [a >= b] where [b] is a number: both sides are converted
    to numbers (two strings would be compared as strings, which the source
    never does). *)
Definition js_gt (a : JsVal) (b : number) : Completion bool :=
  n ← ToNumber a; Normal (num_gt n b).
Definition js_ge (a : JsVal) (b : number) : Completion bool :=
  n ← ToNumber a; Normal (num_ge n b).

(** [const formatPence = (p) => GBP.format((p || 0) / 100);] *)
Definition formatPence (p : JsVal) : Completion string :=
  n ← ToNumber (if ToBoolean p then p else JNum (Finite 0));
  Normal (GBP_format_pence n).
End Coercions.

Definition Number_isFinite (v : JsVal) : bool :=
  match v with
  | JNum (Finite _) => true
  | _ => false
  end.

(** [v === s] for a string literal [s], [v === n] for a number literal. *)
Definition strict_eq_str (v : JsVal) (s : string) : bool :=
  match v with
  | JStr t => String.eqb t s
  | _ => false
  end.

Definition strict_eq_num (v : JsVal) (n : number) : bool :=
  match v with
  | JNum m => num_eq m n
  | _ => false
  end.

(** Property read [v.k], for the names the source reads ([type], [qty],
    [pricePence], [length]): reading from [null] or [undefined] throws; an
    object gives its own property or [undefined]; arrays and strings have a
    [length] (for a string the source only tests it against 0) and none of
    the other names; numbers and booleans have none. *)
Definition Get (v : JsVal) (k : string) : Completion JsVal :=
  match v with
  | JUndefined | JNull => Throw_TypeError
  | JObj props => Normal (lookup_prop k props)
  | JArr l =>
      Normal (if String.eqb k "length"
              then JNum (Finite (Z.of_nat (List.length l)))
              else JUndefined)
  | JStr s =>
      Normal (if String.eqb k "length"
              then JNum (Finite (Z.of_nat (String.length s)))
              else JUndefined)
  | JBool _ | JNum _ => Normal JUndefined
  end.

Fixpoint filterM {A} (f : A -> Completion bool) (l : list A) : Completion (list A) :=
  match l with
  | [] => Normal []
  | x :: rest =>
      keep ← f x;
      kept ← filterM f rest;
      Normal (if keep : bool then x :: kept else kept)
  end.

Fixpoint foldM {A B} (f : B -> A -> Completion B) (acc : B) (l : list A) : Completion B :=
  match l with
  | [] => Normal acc
  | x :: rest => acc' ← f acc x; foldM f acc' rest
  end.

(** [v.filter(cb)]: only an array has the method; on anything else the
    property is [undefined] (or plain data) and calling it throws. *)
Definition Array_filter (v : JsVal) (cb : JsVal -> Completion bool)
  : Completion (list JsVal) :=
  match v with
  | JArr l => filterM cb l
  | _ => Throw_TypeError
  end.

(** The result [{ totalPence, dealNote }]; [dealNote: null] is [None]. *)
Record LineTotal : Type := mkLineTotal {
  totalPence : number;
  dealNote : option string
}.

(** ** The deal pricing engine of [src/src/App.jsx] *)

Module App.
Section Engine.
Context `{rt : JsRuntime}.

(** The callback of [deals.filter] (lines 34-36):
    [d && d.type === "bundle" && Number.isFinite(d.qty) && d.qty > 0 &&
     Number.isFinite(d.pricePence) && d.pricePence >= 0] *)
Definition isBundleDeal (d : JsVal) : Completion bool :=
  if ToBoolean d then
    ty ← Get d "type";
    if strict_eq_str ty "bundle" then
      d_qty ← Get d "qty";
      if Number_isFinite d_qty then
        positive ← js_gt d_qty (Finite 0);
        if positive : bool then
          d_pricePence ← Get d "pricePence";
          if Number_isFinite d_pricePence then js_ge d_pricePence (Finite 0)
          else Normal false
        else Normal false
      else Normal false
    else Normal false
  else Normal false.

(** The body of [for (const d of bundleDeals)] (lines 45-54). *)
Definition tryDeal (unitPricePence qty : number) (best : LineTotal) (d : JsVal)
  : Completion LineTotal :=
  d_qty ← Get d "qty";
  n_qty ← ToNumber d_qty;
  let bundles := Math_floor_div qty n_qty in
  let remainder := num_rem qty n_qty in
  d_pricePence ← Get d "pricePence";
  n_pricePence ← ToNumber d_pricePence;
  let total := num_add (num_mul bundles n_pricePence)
                       (num_mul remainder unitPricePence) in
  if num_lt total (totalPence best) then
    if num_gt bundles (Finite 0) then
      s_qty ← ToString d_qty;
      s_price ← formatPence d_pricePence;
      Normal {| totalPence := total;
                dealNote := Some (s_qty +:+ " for " +:+ s_price
                                  +:+ " × " +:+ NumberToString bundles) |}
    else Normal {| totalPence := total; dealNote := None |}
  else Normal best.

(** [function bestLineTotalWithDeals({ unitPricePence, qty, deals })]
    (lines 29-58).  The price and the quantity are numbers; [deals] is
    whatever [product?.deals] holds. *)
Definition bestLineTotalWithDeals (unitPricePence qty : number) (deals : JsVal)
  : Completion LineTotal :=
  let noDeal := {| totalPence := num_mul unitPricePence qty; dealNote := None |} in
  if negb (ToBoolean deals) then Normal noDeal else
  len ← Get deals "length";
  if strict_eq_num len (Finite 0) || num_le qty (Finite 0) then Normal noDeal else
  bundleDeals ← Array_filter deals isBundleDeal;
  if (List.length bundleDeals =? 0)%nat then Normal noDeal else
  foldM (tryDeal unitPricePence qty) noDeal bundleDeals.
End Engine.
End App.

(** ** The copy of the engine in [src/unnamed/part_000] *)

Module Part000.
Section Engine.
Context `{rt : JsRuntime}.

(** The callback of [deals.filter] (line 24):
    [d && d.type === "bundle" && d.qty > 0 && d.pricePence >= 0] *)
Definition isBundleDeal (d : JsVal) : Completion bool :=
  if ToBoolean d then
    ty ← Get d "type";
    if strict_eq_str ty "bundle" then
      d_qty ← Get d "qty";
      positive ← js_gt d_qty (Finite 0);
      if positive : bool then
        d_pricePence ← Get d "pricePence";
        js_ge d_pricePence (Finite 0)
      else Normal false
    else Normal false
  else Normal false.

(** The body of [for (const d of bundleDeals)] (lines 35-45). *)
Definition tryDeal (unitPricePence qty : number) (best : LineTotal) (d : JsVal)
  : Completion LineTotal :=
  d_qty ← Get d "qty";
  n_qty ← ToNumber d_qty;
  let bundles := Math_floor_div qty n_qty in
  let remainder := num_rem qty n_qty in
  d_pricePence ← Get d "pricePence";
  n_pricePence ← ToNumber d_pricePence;
  let total := num_add (num_mul bundles n_pricePence)
                       (num_mul remainder unitPricePence) in
  if num_lt total (totalPence best) then
    if num_gt bundles (Finite 0) then
      s_qty ← ToString d_qty;
      s_price ← formatPence d_pricePence;
      Normal {| totalPence := total;
                dealNote := Some (s_qty +:+ " for " +:+ s_price
                                  +:+ " × " +:+ NumberToString bundles) |}
    else Normal {| totalPence := total; dealNote := None |}
  else Normal best.

(** [function bestLineTotalWithDeals({ unitPricePence, qty, deals })]
    (lines 17-49). *)
Definition bestLineTotalWithDeals (unitPricePence qty : number) (deals : JsVal)
  : Completion LineTotal :=
  let noDeal := {| totalPence := num_mul unitPricePence qty; dealNote := None |} in
  if negb (ToBoolean deals) then Normal noDeal else
  len ← Get deals "length";
  if strict_eq_num len (Finite 0) || num_le qty (Finite 0) then Normal noDeal else
  bundleDeals ← Array_filter deals isBundleDeal;
  if (List.length bundleDeals =? 0)%nat then Normal noDeal else
  foldM (tryDeal unitPricePence qty) noDeal bundleDeals.
End Engine.
End Part000.

(** ** A concrete runtime for the worked examples

    [Number(s)] for decimal integer literals (every other string reads as
    NaN here) and the en-GB pound format of a whole number of pence. *)

Definition two_digits (n : Z) : string :=
  (if n <? 10 then "0" else "") +:+ decimal n.

Definition three_digits (n : Z) : string :=
  (if n <? 10 then "00" else if n <? 100 then "0" else "") +:+ decimal n.

Fixpoint grouped (fuel : nat) (n : Z) : string :=
  match fuel with
  | O => decimal n
  | S fuel' =>
      if n <? 1000 then decimal n
      else grouped fuel' (n / 1000) +:+ "," +:+ three_digits (n mod 1000)
  end.

Definition en_GB_pence (x : number) : string :=
  match x with
  | NaN => "£NaN"
  | PosInf => "£∞"
  | NegInf => "-£∞"
  | Finite z =>
      (if z <? 0 then "-" else "") +:+ "£" +:+ grouped 8 (Z.abs z / 100)
      +:+ "." +:+ two_digits (Z.abs z mod 100)
  end.

Definition decimal_literal (s : string) : number :=
  if String.eqb s "" then Finite 0
  else match NilZero.int_of_string s with
       | Some i => Finite (Z.of_int i)
       | None => NaN
       end.

Definition browser : JsRuntime :=
  {| StringToNumber := decimal_literal; GBP_format_pence := en_GB_pence |}.

Definition bundle (q p : JsVal) : JsVal :=
  JObj [("type", JStr "bundle"); ("qty", q); ("pricePence", p)].

Definition JInt (z : Z) : JsVal := JNum (Finite z).

(** ** The catalog: price bands and products

    The catalog is typed as the default data and the admin screen have it;
    an optional field that is absent is [None].  Only [deals] is kept as a
    raw value, since the engine is written to survive anything there. *)

Module Band.
Record t : Type := mk {
  id : string;
  name : string;
  units : list string;
  pricesPence : gmap string Z
}.
End Band.

Module Product.
Record t : Type := mk {
  id : string;
  name : string;
  category : string;
  bandId : option string;
  units : option (list string);
  pricesPence : option (gmap string Z);
  deals : JsVal
}.
End Product.

(** The value [{ units, pricesPence }] that [resolveUnitsAndPrices] returns. *)
Module Resolved.
Record t : Type := mk {
  units : list string;
  pricesPence : gmap string Z
}.
End Resolved.

(** The [state] of the component (lines 62-91). *)
Record Config : Type := mkConfig {
  bands : list Band.t;
  products : list Product.t;
  pinEnabled : bool;
  pin : string
}.

(** [const map = new Map(); state.bands.forEach((b) => map.set(b.id, b));]
    (lines 129-133): a later band replaces an earlier one with the same id. *)
Definition bandById (bs : list Band.t) : gmap string Band.t :=
  foldl (fun m b => <[Band.id b := b]> m) ∅ bs.

(** [function resolveUnitsAndPrices(product)] (lines 160-170), with the
    lookup [bandById] it closes over as its first argument.  An array or an
    object is truthy even when empty, so the first test is on presence. *)
Definition resolveUnitsAndPrices (byId : gmap string Band.t) (product : Product.t)
  : Resolved.t :=
  match Product.pricesPence product, Product.units product with
  | Some pricesPence, Some units => Resolved.mk units pricesPence
  | _, _ =>
      match Product.bandId product ≫= (fun bandId => byId !! bandId) with
      | None => Resolved.mk ["One"] {["One" := 0]}
      | Some band => Resolved.mk (Band.units band) (Band.pricesPence band)
      end
  end.

(** ** The basket *)

Module Line.
Record t : Type := mk {
  key : string;
  productId : string;
  label : string;
  unit : string;
  pricePence : Z;
  qty : Z
}.

(** [{ ...l, qty: q }] *)
Definition with_qty (l : t) (q : Z) : t :=
  mk (key l) (productId l) (label l) (unit l) (pricePence l) q.
End Line.

(** What the handlers read and write: the configuration, the basket and the
    key of the last line added to. *)
Record Till : Type := mkTill {
  state : Config;
  basket : list Line.t;
  lastAddKey : option string
}.

Definition setBasket (b : list Line.t) (t : Till) : Till :=
  mkTill (state t) b (lastAddKey t).

Definition setLastAddKey (k : option string) (t : Till) : Till :=
  mkTill (state t) (basket t) k.

Definition setState (c : Config) (t : Till) : Till :=
  mkTill c (basket t) (lastAddKey t).

(** [Array.prototype.findIndex]: the first index that satisfies [p], or -1. *)
Fixpoint findIndex {A} (p : A -> bool) (l : list A) : Z :=
  match l with
  | [] => -1
  | x :: rest =>
      if p x then 0
      else let i := findIndex p rest in if i <? 0 then -1 else i + 1
  end.

(** The key of the grouping: (productId, unit, price). *)
Definition sameLine (productId unit : string) (pricePence : Z) (l : Line.t) : bool :=
  String.eqb (Line.productId l) productId
  && String.eqb (Line.unit l) unit
  && (Line.pricePence l =? pricePence).

(** The price [addToBasket] resolves: [pricesPence[unit] ?? 0]. *)
Definition resolvedPrice (c : Config) (product : Product.t) (unit : string) : Z :=
  default 0 (Resolved.pricesPence
               (resolveUnitsAndPrices (bandById (bands c)) product) !! unit).

(** [function addToBasket(product, unit)] (lines 192-220).  [uid] is the
    string the call to [uid()] returns. *)
Definition addToBasket (uid : string) (product : Product.t) (unit : string)
    (t : Till) : Till :=
  let pricePence := resolvedPrice (state t) product unit in
  let label :=
    if String.eqb unit "One" then Product.name product
    else Product.name product +:+ " (" +:+ unit +:+ ")" in
  let existingIndex :=
    findIndex (sameLine (Product.id product) unit pricePence) (basket t) in
  if 0 <=? existingIndex then
    let next :=
      imap (fun i l => if Z.of_nat i =? existingIndex
                       then Line.with_qty l (Line.qty l + 1) else l)
           (basket t) in
    setLastAddKey (Line.key <$> next !! Z.to_nat existingIndex) (setBasket next t)
  else
    let line := Line.mk uid (Product.id product) label unit pricePence 1 in
    setLastAddKey (Some (Line.key line)) (setBasket (basket t ++ [line]) t).

(** [function incQty(key)] (lines 222-224). *)
Definition incQty (key : string) (t : Till) : Till :=
  setBasket
    (List.map (fun l => if String.eqb (Line.key l) key
                        then Line.with_qty l (Line.qty l + 1) else l)
              (basket t)) t.

(** [function decQty(key)] (lines 226-232). *)
Definition decQty (key : string) (t : Till) : Till :=
  setBasket
    (List.filter (fun l => 0 <? Line.qty l)
       (List.map (fun l => if String.eqb (Line.key l) key
                           then Line.with_qty l (Line.qty l - 1) else l)
                 (basket t))) t.

(** [function removeLine(key)] (lines 234-236). *)
Definition removeLine (key : string) (t : Till) : Till :=
  setBasket (List.filter (fun l => negb (String.eqb (Line.key l) key)) (basket t)) t.

(** [const map = new Map(); state.products.forEach((p) => map.set(p.id, p));]
    (lines 135-139). *)
Definition productById (ps : list Product.t) : gmap string Product.t :=
  foldl (fun m p => <[Product.id p := p]> m) ∅ ps.

(** [function lineTotal(line)] (lines 172-183): [product?.deals] is
    [undefined] when the line's product is no longer in the catalog. *)
Definition lineTotal `{rt : JsRuntime} (t : Till) (line : Line.t)
  : Completion LineTotal :=
  let product := productById (products (state t)) !! Line.productId line in
  let deals := from_option Product.deals JUndefined product in
  App.bestLineTotalWithDeals (Finite (Line.pricePence line))
    (Finite (Line.qty line)) deals.

(** The product with one of its own prices replaced:
    [{ ...p, pricesPence: { ...(p.pricesPence || {}), [unit]: newPence } }]. *)
Definition withOverridePrice (unit : string) (newPence : Z) (p : Product.t)
  : Product.t :=
  Product.mk (Product.id p) (Product.name p) (Product.category p)
    (Product.bandId p) (Product.units p)
    (Some (<[unit := newPence]> (default ∅ (Product.pricesPence p))))
    (Product.deals p).

(** [function updateOverridePrice(productId, unit, newPence)] (lines 288-296). *)
Definition updateOverridePrice (productId unit : string) (newPence : Z)
    (t : Till) : Till :=
  setState
    (mkConfig (bands (state t))
       (List.map (fun p => if negb (String.eqb (Product.id p) productId) then p
                           else withOverridePrice unit newPence p)
                 (products (state t)))
       (pinEnabled (state t)) (pin (state t))) t.

(** [function updateBandPrice(bandId, unit, newPence)] (lines 279-286). *)
Definition updateBandPrice (bandId unit : string) (newPence : Z) (t : Till) : Till :=
  setState
    (mkConfig
       (List.map (fun b => if String.eqb (Band.id b) bandId
                           then Band.mk (Band.id b) (Band.name b) (Band.units b)
                                  (<[unit := newPence]> (Band.pricesPence b))
                           else b)
                 (bands (state t)))
       (products (state t)) (pinEnabled (state t)) (pin (state t))) t.

(** ** The specification's view of the engine *)

(** A well-formed Bundle entry, in the specification's words: the tag is
    "bundle", the trigger quantity is a finite number > 0 and the bundle
    price is a finite number >= 0. *)
Inductive WellFormedBundle : JsVal -> Z -> Z -> Prop :=
| WellFormedBundle_intro (props : list (string * JsVal)) (q p : Z) :
    lookup_prop "type" props = JStr "bundle" ->
    lookup_prop "qty" props = JNum (Finite q) -> 0 < q ->
    lookup_prop "pricePence" props = JNum (Finite p) -> 0 <= p ->
    WellFormedBundle (JObj props) q p.

(** The same, decided: the trigger quantity and the bundle price of a
    well-formed entry. *)
Definition bundleFields (d : JsVal) : option (Z * Z) :=
  match d with
  | JObj props =>
      match lookup_prop "type" props with
      | JStr ty =>
          if String.eqb ty "bundle" then
            match lookup_prop "qty" props with
            | JNum (Finite q) =>
                if 0 <? q then
                  match lookup_prop "pricePence" props with
                  | JNum (Finite p) => if 0 <=? p then Some (q, p) else None
                  | _ => None
                  end
                else None
            | _ => None
            end
          else None
      | _ => None
      end
  | _ => None
  end.

Definition isWellFormed (d : JsVal) : bool :=
  match bundleFields d with
  | Some _ => true
  | None => false
  end.

(** The no-deal baseline [(unitPrice * quantity, no description)]. *)
Definition noDeal (unitPrice quantity : number) : LineTotal :=
  {| totalPence := num_mul unitPrice quantity; dealNote := None |}.

(** [bundleCount = floor(quantity / trigger)],
    [remainder = quantity mod trigger],
    [candidateTotal = bundleCount * bundlePrice + remainder * unitPrice]. *)
Definition bundleCount (quantity : number) (trigger : Z) : number :=
  Math_floor_div quantity (Finite trigger).

Definition candidateTotal (unitPrice quantity : number) (trigger bundlePrice : Z)
  : number :=
  num_add (num_mul (bundleCount quantity trigger) (Finite bundlePrice))
          (num_mul (num_rem quantity (Finite trigger)) unitPrice).

Section Candidates.
Context `{rt : JsRuntime}.

(** The result a deal gives when it is taken: its candidate total, and its
    description when at least one bundle applies. *)
Definition candidateLine (unitPrice quantity : number) (trigger bundlePrice : Z)
  : LineTotal :=
  {| totalPence := candidateTotal unitPrice quantity trigger bundlePrice;
     dealNote :=
       if num_gt (bundleCount quantity trigger) (Finite 0)
       then Some (NumberToString (Finite trigger) +:+ " for "
                  +:+ GBP_format_pence (Finite bundlePrice)
                  +:+ " × " +:+ NumberToString (bundleCount quantity trigger))
       else None |}.

(** One deal against the best so far: replace on strictly less. *)
Definition pickBest (unitPrice quantity : number) (best : LineTotal) (d : Z * Z)
  : LineTotal :=
  if num_lt (candidateTotal unitPrice quantity d.1 d.2) (totalPence best)
  then candidateLine unitPrice quantity d.1 d.2
  else best.

Definition cheapest (unitPrice quantity : number) (ds : list (Z * Z)) : LineTotal :=
  fold_left (pickBest unitPrice quantity) ds (noDeal unitPrice quantity).
End Candidates.

(** The grouping key of a basket line. *)
Definition lineKey (l : Line.t) : string * string * Z :=
  (Line.productId l, Line.unit l, Line.pricePence l).

(** The key [addToBasket] looks for: the product, the unit and the price it
    resolves for them. *)
Definition keyOf (c : Config) (product : Product.t) (unit : string)
  : string * string * Z :=
  (Product.id product, unit, resolvedPrice c product unit).

(** At most one line for each (product identifier, unit, price). *)
Definition OneLinePerKey (b : list Line.t) : Prop := NoDup (List.map lineKey b).

(** Every line has a quantity of at least 1. *)
Definition QtyPositive (b : list Line.t) : Prop :=
  Forall (fun l => 1 <= Line.qty l) b.

(** The product with its band reference replaced (or removed). *)
Definition withBandId (bandId : option string) (p : Product.t) : Product.t :=
  Product.mk (Product.id p) (Product.name p) (Product.category p) bandId
    (Product.units p) (Product.pricesPence p) (Product.deals p).

(** ** Sample data, from [DEFAULT_STATE] *)

Definition premium : Band.t :=
  Band.mk "band-premium" "Premium Spirits" ["Single"; "Double"]
    {["Single" := 450; "Double" := 850]}.

Definition tanqueray : Product.t :=
  Product.mk "p-gin1" "Tanqueray" "Spirits" (Some "band-premium") None None
    JUndefined.

Definition bombs : Product.t :=
  Product.mk "p-bombs" "Bombs" "Shots" None (Some ["One"])
    (Some {["One" := 290]}) (JArr [bundle (JInt 3) (JInt 700)]).

(** Bombs as a hand-edited import can have them: the deal is not wrapped in
    a list. *)
Definition bombs_unwrapped : Product.t :=
  Product.mk "p-bombs" "Bombs" "Shots" None (Some ["One"])
    (Some {["One" := 290]}) (bundle (JInt 3) (JInt 700)).

Definition openingTill : Till :=
  mkTill (mkConfig [premium] [tanqueray; bombs] false "1234") [] None.

(** ** The rest of the handlers *)

(** [function undoLastAdd()] (lines 238-241): [!lastAddKey] holds for
    [null] and for the empty string. *)
Definition undoLastAdd (t : Till) : Till :=
  match lastAddKey t with
  | None => t
  | Some key => if String.eqb key "" then t else decQty key t
  end.

(** [const totalPence = useMemo(() => basket.reduce((sum, line) =>
    sum + lineTotal(line).totalPence, 0), ...)] (lines 185-188). *)
Module Sale.
Definition totalPence `{rt : JsRuntime} (t : Till) : Completion number :=
  foldM (fun sum line =>
           r ← lineTotal t line;
           Normal (num_add sum (totalPence (r : LineTotal))))
        (Finite 0) (basket t).
End Sale.

(** [Array.from(new Set(xs))]: the distinct elements, each at its first
    appearance; [seen] is what the set already holds. *)
Fixpoint distinct_from (seen xs : list string) : list string :=
  match xs with
  | [] => []
  | x :: rest =>
      if existsb (String.eqb x) seen then distinct_from seen rest
      else x :: distinct_from (x :: seen) rest
  end.

(** [const categories] (lines 142-145): the tabs, without "Add-ons". *)
Definition categories (c : Config) : list string :=
  List.filter (fun cat => negb (String.eqb cat "Add-ons"))
    (distinct_from [] (List.map Product.category (products c))).

(** [const pinnedOnSpirits] (lines 147-150):
    [ids.map((id) => productById.get(id)).filter(Boolean)]. *)
Definition pinnedOnSpirits (c : Config) : list Product.t :=
  omap (fun id => productById (products c) !! id) ["p-mixer-charge"].

(** The admin screen: [adminOpen], [pinEntry], [authed] (lines 113-115). *)
Record Admin : Type := mkAdmin {
  adminOpen : bool;
  pinEntry : string;
  authed : bool
}.

(** [function openAdmin()] (lines 262-266). *)
Definition openAdmin (c : Config) (a : Admin) : Admin :=
  mkAdmin true "" (negb (pinEnabled c)).

(** [function closeAdmin()] (lines 268-272). *)
Definition closeAdmin (a : Admin) : Admin := mkAdmin false "" false.

(** [function tryPin()] (lines 274-277): the new state, and the text of the
    alert when there is one. *)
Definition tryPin (c : Config) (a : Admin) : Admin * option string :=
  if String.eqb (pinEntry a) (pin c)
  then (mkAdmin (adminOpen a) (pinEntry a) true, None)
  else (a, Some "Wrong PIN").

(** [onChange={(e) => setPinEntry(e.target.value)}] (line 599). *)
Definition setPinEntry (s : string) (a : Admin) : Admin :=
  mkAdmin (adminOpen a) s (authed a).

(** [setState((s) => ({ ...s, pin: e.target.value || "1234" }))] (line 716). *)
Definition setPin (value : string) (c : Config) : Config :=
  mkConfig (bands c) (products c) (pinEnabled c)
    (if String.eqb value "" then "1234" else value).

(** What the user can do to the admin screen. *)
Inductive AdminEvent : Type :=
| ClickEditPrices
| ClickClose
| TypePin (s : string)
| ClickUnlock.

Definition adminStep (c : Config) (a : Admin) (e : AdminEvent) : Admin :=
  match e with
  | ClickEditPrices => openAdmin c a
  | ClickClose => closeAdmin a
  | TypePin s => setPinEntry s a
  | ClickUnlock => (tryPin c a).1
  end.

(** [Math.max(a, b)] and [Math.min(a, b)]: NaN when either is. *)
Definition Math_max (a b : number) : number :=
  match a, b with
  | NaN, _ | _, NaN => NaN
  | _, _ => if num_lt a b then b else a
  end.

Definition Math_min (a b : number) : number :=
  match a, b with
  | NaN, _ | _, NaN => NaN
  | _, _ => if num_lt b a then b else a
  end.

(** [const clampInt = (n, min, max) => Math.max(min, Math.min(max, n));]
    ([src/unnamed/part_000], line 51). *)
Definition clampInt (n min max : number) : number :=
  Math_max min (Math_min max n).

(** ** Notions used in the properties *)

(** The candidate total of a deal (trigger, price) on integers. *)
Definition candidatePence (unitPrice quantity : Z) (d : Z * Z) : Z :=
  quantity / d.1 * d.2 + Z.rem quantity d.1 * unitPrice.

(** The last element of a list that satisfies [p]. *)
Definition lastWith {A} (p : A -> bool) (l : list A) : option A :=
  List.find p (List.rev l).

(** The keys of the lines are distinct and none is the empty string. *)
Definition KeysDistinct (b : list Line.t) : Prop :=
  NoDup (List.map Line.key b) /\ ~ In "" (List.map Line.key b).

(** Every product's [deals] is absent or a list. *)
Definition DealsAreLists (c : Config) : Prop :=
  forall p, In p (products c) ->
    Product.deals p = JUndefined \/ Product.deals p = JNull
    \/ exists l, Product.deals p = JArr l.

(** The basket's total with no deal applied. *)
Definition undiscounted (b : list Line.t) : Z :=
  fold_right (fun l acc => Line.pricePence l * Line.qty l + acc) 0 b.

(** A mixer charge, from [DEFAULT_STATE]. *)
Definition mixer : Product.t :=
  Product.mk "p-mixer-charge" "Mixer Charge" "Add-ons" None (Some ["One"])
    (Some {["One" := 70]}) JUndefined.

(** Whether [String(v)] returns: everything converts except an object with
    an own [toString] entry, and an array that holds one. *)
Definition converts (v : JsVal) : bool :=
  match ToString v with
  | Normal _ => true
  | Throw_TypeError => false
  end.

(** The two fields of a deal that the engine converts to numbers. *)
Definition ConvertibleFields (props : list (string * JsVal)) : Prop :=
  converts (lookup_prop "qty" props) = true
  /\ converts (lookup_prop "pricePence" props) = true.

(** * Properties *)

(** ** Numbers *)

Lemma num_lt_irrefl a : num_lt a a = false.
Proof. destruct a; simpl; auto. apply Z.ltb_irrefl. Qed.

Lemma num_lt_trans a b c :
  num_lt a b = true -> num_lt b c = true -> num_lt a c = true.
Proof.
  destruct a, b, c; simpl; try congruence.
  rewrite !Z.ltb_lt. lia.
Qed.

Lemma num_lt_le a b : num_lt a b = true -> num_le a b = true.
Proof.
  destruct a, b; simpl; try congruence.
  rewrite Z.ltb_lt, negb_true_iff, Z.ltb_ge. lia.
Qed.

Lemma num_le_refl_finite z : num_le (Finite z) (Finite z) = true.
Proof. simpl. now rewrite Z.ltb_irrefl. Qed.

(** ** The filter of [src/src/App.jsx] *)

Lemma bundleFields_spec d q p :
  bundleFields d = Some (q, p) <-> WellFormedBundle d q p.
Proof.
  split.
  - destruct d as [| | | | | |props]; simpl; try discriminate.
    destruct (lookup_prop "type" props) as [| | | |ty| |] eqn:Ety; try discriminate.
    destruct (String.eqb ty "bundle") eqn:Etag; try discriminate.
    apply String.eqb_eq in Etag; subst ty.
    destruct (lookup_prop "qty" props) as [| | |[| | |dq]| | |] eqn:Eq; try discriminate.
    destruct (0 <? dq) eqn:Hq; try discriminate.
    destruct (lookup_prop "pricePence" props) as [| | |[| | |dp]| | |] eqn:Ep;
      try discriminate.
    destruct (0 <=? dp) eqn:Hp; try discriminate.
    intros [= <- <-]. constructor; auto; lia.
  - intros [props q' p' Ety Eq Hq Ep Hp]. simpl.
    rewrite Ety, Eq, Ep. simpl.
    destruct (0 <? q') eqn:E1; [|lia].
    destruct (0 <=? p') eqn:E2; [reflexivity|lia].
Qed.

Section AppEngine.
Context `{rt : JsRuntime}.

Lemma isBundleDeal_decides d : App.isBundleDeal d = Normal (isWellFormed d).
Proof.
  unfold App.isBundleDeal, isWellFormed.
  destruct d as [| |b|n|s|l|props]; simpl; try reflexivity.
  - destruct b; reflexivity.
  - destruct n as [| | |z]; try reflexivity. destruct (z =? 0); reflexivity.
  - destruct (String.eqb s ""); reflexivity.
  - destruct (lookup_prop "type" props) as [| | | |ty| |]; simpl; try reflexivity.
    destruct (String.eqb ty "bundle"); simpl; try reflexivity.
    destruct (lookup_prop "qty" props) as [| | |[| | |dq]| | |]; simpl; try reflexivity.
    unfold js_gt, num_gt; simpl.
    destruct (0 <? dq); simpl; try reflexivity.
    destruct (lookup_prop "pricePence" props) as [| | |[| | |dp]| | |];
      simpl; try reflexivity.
    unfold js_ge, num_ge; simpl. rewrite <- Z.leb_antisym.
    destruct (0 <=? dp); reflexivity.
Qed.

Lemma filterM_isBundleDeal l :
  filterM App.isBundleDeal l = Normal (List.filter isWellFormed l).
Proof.
  induction l as [|d l IH]; simpl; [reflexivity|].
  rewrite isBundleDeal_decides, IH. simpl. destruct (isWellFormed d); reflexivity.
Qed.

Lemma formatPence_finite p :
  formatPence (JNum (Finite p)) = Normal (GBP_format_pence (Finite p)).
Proof.
  unfold formatPence. simpl.
  destruct (p =? 0) eqn:E; simpl; [|reflexivity].
  apply Z.eqb_eq in E. now subst.
Qed.

Lemma tryDeal_well_formed u q best d dq dp :
  bundleFields d = Some (dq, dp) ->
  App.tryDeal u q best d = Normal (pickBest u q best (dq, dp)).
Proof.
  intros H. apply bundleFields_spec in H.
  destruct H as [props dq dp _ Eq _ Ep _].
  unfold App.tryDeal, pickBest, candidateLine, candidateTotal, bundleCount.
  cbn [Get mbind Completion_bind]. rewrite Eq, Ep.
  cbn [ToNumber ToString mbind Completion_bind fst snd].
  match goal with |- context [num_lt ?t (totalPence best)] =>
    destruct (num_lt t (totalPence best)); [|reflexivity] end.
  match goal with |- context [num_gt ?b (Finite 0)] =>
    destruct (num_gt b (Finite 0)); [|reflexivity] end.
  rewrite formatPence_finite. reflexivity.
Qed.

Lemma foldM_tryDeal u q l : forall best,
  foldM (App.tryDeal u q) best (List.filter isWellFormed l)
  = Normal (fold_left (pickBest u q) (omap bundleFields l) best).
Proof.
  induction l as [|d l IH]; intros best; simpl; [reflexivity|].
  unfold isWellFormed at 1.
  destruct (bundleFields d) as [[dq dp]|] eqn:E; simpl; [|apply IH].
  rewrite (tryDeal_well_formed _ _ _ _ _ _ E). simpl. apply IH.
Qed.

Lemma filter_isWellFormed_nil l :
  List.filter isWellFormed l = [] -> omap bundleFields l = [].
Proof.
  induction l as [|d l IH]; simpl; [reflexivity|].
  unfold isWellFormed at 1.
  destruct (bundleFields d); [discriminate|auto].
Qed.

Lemma filter_then_fold u q l :
  (filterM App.isBundleDeal l ≫= fun bundleDeals =>
     if (List.length bundleDeals =? 0)%nat then Normal (noDeal u q)
     else foldM (App.tryDeal u q) (noDeal u q) bundleDeals)
  = Normal (cheapest u q (omap bundleFields l)).
Proof.
  rewrite filterM_isBundleDeal. unfold cheapest. simpl.
  destruct (List.filter isWellFormed l) as [|d kept] eqn:E.
  - rewrite (filter_isWellFormed_nil _ E). reflexivity.
  - cbn [List.length Nat.eqb]. rewrite <- E. apply foldM_tryDeal.
Qed.

(** On an array the engine returns, and returns the cheapest single deal
    among the well-formed entries (or the baseline). *)
Lemma bestLineTotalWithDeals_array u q l :
  App.bestLineTotalWithDeals u q (JArr l)
  = Normal (if num_le q (Finite 0) then noDeal u q
            else cheapest u q (omap bundleFields l)).
Proof.
  unfold App.bestLineTotalWithDeals, Array_filter.
  change {| totalPence := num_mul u q; dealNote := None |} with (noDeal u q).
  change (Get (JArr l) "length")
    with (Normal (JNum (Finite (Z.of_nat (List.length l))))).
  cbn [ToBoolean negb mbind Completion_bind strict_eq_num num_eq].
  destruct (Z.of_nat (List.length l) =? 0) eqn:E.
  - apply Z.eqb_eq in E. destruct l; [|simpl in E; lia].
    simpl. destruct (num_le q (Finite 0)); reflexivity.
  - cbn [orb]. destruct (num_le q (Finite 0)); [reflexivity|].
    apply filter_then_fold.
Qed.

(** ** Scanning the deals: what the loop keeps *)

Lemma pickBest_same_or_less u q best d :
  pickBest u q best d = best
  \/ num_lt (totalPence (pickBest u q best d)) (totalPence best) = true.
Proof.
  unfold pickBest.
  destruct (num_lt (candidateTotal u q d.1 d.2) (totalPence best)) eqn:E; auto.
Qed.

Lemma fold_pickBest_same_or_less u q ds : forall best,
  fold_left (pickBest u q) ds best = best
  \/ num_lt (totalPence (fold_left (pickBest u q) ds best)) (totalPence best) = true.
Proof.
  induction ds as [|d ds IH]; intros best; simpl; [auto|].
  destruct (IH (pickBest u q best d)) as [-> | H];
    destruct (pickBest_same_or_less u q best d) as [E | E].
  - rewrite E. auto.
  - auto.
  - rewrite E in *. auto.
  - right. eapply num_lt_trans; eauto.
Qed.

(** A total that is not below the best stays not below it. *)
Lemma pickBest_not_below u q c best d :
  num_lt c (totalPence best) = false ->
  num_lt c (totalPence (pickBest u q best d)) = false.
Proof.
  intros H. destruct (pickBest_same_or_less u q best d) as [-> | E]; [exact H|].
  destruct (num_lt c (totalPence (pickBest u q best d))) eqn:F; [|reflexivity].
  rewrite (num_lt_trans _ _ _ F E) in H. discriminate.
Qed.

Lemma fold_pickBest_not_below u q c ds : forall best,
  num_lt c (totalPence best) = false ->
  num_lt c (totalPence (fold_left (pickBest u q) ds best)) = false.
Proof.
  induction ds as [|d ds IH]; intros best H; simpl; [exact H|].
  apply IH, pickBest_not_below, H.
Qed.

(** A total strictly below the best and below every candidate stays
    strictly below the best. *)
Lemma fold_pickBest_above u q c ds : forall best,
  num_lt c (totalPence best) = true ->
  (forall d, In d ds -> num_lt c (candidateTotal u q d.1 d.2) = true) ->
  num_lt c (totalPence (fold_left (pickBest u q) ds best)) = true.
Proof.
  induction ds as [|d ds IH]; intros best H Hds; simpl; [exact H|].
  apply IH; [|intros e He; apply Hds; now right].
  unfold pickBest.
  destruct (num_lt (candidateTotal u q d.1 d.2) (totalPence best)); [|exact H].
  simpl. apply Hds. now left.
Qed.

(** Candidates that are not strictly below the best leave it in place. *)
Lemma fold_pickBest_stays u q ds : forall best,
  (forall d, In d ds -> num_lt (candidateTotal u q d.1 d.2) (totalPence best) = false) ->
  fold_left (pickBest u q) ds best = best.
Proof.
  induction ds as [|d ds IH]; intros best Hds; simpl; [reflexivity|].
  assert (pickBest u q best d = best) as ->.
  { unfold pickBest. rewrite Hds; [reflexivity|now left]. }
  apply IH. intros e He. apply Hds. now right.
Qed.

Lemma In_omap_bundleFields l dq dp :
  In (dq, dp) (omap bundleFields l) ->
  exists d, In d l /\ WellFormedBundle d dq dp.
Proof.
  intros H. apply list_elem_of_In, list_elem_of_omap in H.
  destruct H as (d & Hd & E). exists d. split.
  - now apply list_elem_of_In.
  - now apply bundleFields_spec.
Qed.

Lemma candidateTotal_finite u q dq dp :
  dq <> 0 ->
  candidateTotal (Finite u) (Finite q) dq dp
  = Finite (q / dq * dp + Z.rem q dq * u).
Proof.
  intros H. unfold candidateTotal, bundleCount. simpl.
  destruct (dq =? 0) eqn:E; [apply Z.eqb_eq in E; contradiction|reflexivity].
Qed.

Lemma WellFormedBundle_fields d q p q' p' :
  WellFormedBundle d q p -> WellFormedBundle d q' p' -> q' = q /\ p' = p.
Proof.
  intros H H'. apply bundleFields_spec in H, H'.
  rewrite H in H'. now inversion H'.
Qed.

(** The first deal that reaches the least candidate total is the one
    returned, provided that total beats the baseline. *)
Lemma first_minimum_wins u q pre d post dq dp :
  num_le q (Finite 0) = false ->
  WellFormedBundle d dq dp ->
  num_lt (candidateTotal u q dq dp) (num_mul u q) = true ->
  (forall e eq ep, In e pre -> WellFormedBundle e eq ep ->
     num_lt (candidateTotal u q dq dp) (candidateTotal u q eq ep) = true) ->
  (forall e eq ep, In e post -> WellFormedBundle e eq ep ->
     num_lt (candidateTotal u q eq ep) (candidateTotal u q dq dp) = false) ->
  App.bestLineTotalWithDeals u q (JArr (pre ++ d :: post))
  = Normal (candidateLine u q dq dp).
Proof.
  intros Hq Hd Hbase Hpre Hpost.
  rewrite bestLineTotalWithDeals_array, Hq. f_equal.
  unfold cheapest. rewrite omap_app, fold_left_app.
  apply bundleFields_spec in Hd. cbn [omap list_omap]. rewrite Hd. simpl.
  set (best := fold_left (pickBest u q) (omap bundleFields pre) (noDeal u q)).
  assert (num_lt (candidateTotal u q dq dp) (totalPence best) = true) as Hbest.
  { apply fold_pickBest_above; [exact Hbase|].
    intros [eq ep] He. apply In_omap_bundleFields in He.
    destruct He as (e & He & Hwf). simpl. eauto. }
  assert (pickBest u q best (dq, dp) = candidateLine u q dq dp) as ->.
  { unfold pickBest. simpl. now rewrite Hbest. }
  apply fold_pickBest_stays. intros [eq ep] He.
  apply In_omap_bundleFields in He. destruct He as (e & He & Hwf). simpl. eauto.
Qed.

Lemma pickBest_own_not_below u q best dq dp :
  num_lt (candidateTotal u q dq dp) (totalPence (pickBest u q best (dq, dp))) = false.
Proof.
  unfold pickBest. simpl.
  destruct (num_lt (candidateTotal u q dq dp) (totalPence best)) eqn:E;
    [apply num_lt_irrefl|exact E].
Qed.

(** Removing the later of two tied deals does not change the result. *)
Lemma later_tie_is_never_taken u q l1 d1 l2 d2 l3 q1 p1 q2 p2 :
  WellFormedBundle d1 q1 p1 ->
  WellFormedBundle d2 q2 p2 ->
  candidateTotal u q q1 p1 = candidateTotal u q q2 p2 ->
  App.bestLineTotalWithDeals u q (JArr (l1 ++ d1 :: l2 ++ d2 :: l3))
  = App.bestLineTotalWithDeals u q (JArr (l1 ++ d1 :: l2 ++ l3)).
Proof.
  intros H1 H2 Hc. rewrite !bestLineTotalWithDeals_array.
  destruct (num_le q (Finite 0)); [reflexivity|]. f_equal.
  apply bundleFields_spec in H1, H2. unfold cheapest.
  rewrite !omap_app. cbn [omap list_omap]. rewrite H1, !omap_app.
  cbn [omap list_omap]. rewrite H2, !fold_left_app. simpl.
  rewrite !fold_left_app. simpl. f_equal.
  set (best1 := pickBest u q _ (q1, p1)).
  assert (num_lt (candidateTotal u q q2 p2) (totalPence best1) = false) as Hb.
  { rewrite <- Hc. apply pickBest_own_not_below. }
  unfold pickBest at 1. simpl.
  now rewrite (fold_pickBest_not_below u q _ _ _ Hb).
Qed.

(** The engine returns on every array of entries and on absent deals. *)
Lemma returns_on_lists u q deals :
  deals = JUndefined \/ deals = JNull \/ (exists l, deals = JArr l) ->
  exists r, App.bestLineTotalWithDeals u q deals = Normal r.
Proof.
  intros [-> | [-> | [l ->]]]; [eexists; reflexivity ..|].
  rewrite bestLineTotalWithDeals_array. eauto.
Qed.

(** A candidate total is a sum of products of numbers that are not
    negative: it is NaN or not negative itself. *)
Lemma candidateTotal_nonnegative u q (dq dp : Z) :
  num_le (Finite 0) u = true -> num_le (Finite 0) q = true ->
  0 < dq -> 0 <= dp ->
  candidateTotal u q dq dp = NaN
  \/ num_le (Finite 0) (candidateTotal u q dq dp) = true.
Proof.
  intros Hu Hq Hdq Hdp. unfold candidateTotal, bundleCount.
  destruct u as [| | |u], q as [| | |q]; try discriminate; simpl in Hu, Hq;
    rewrite ?negb_true_iff, ?Z.ltb_ge in Hu, Hq; simpl;
    repeat (match goal with
            | |- context [?a <? ?b] => destruct (a <? b) eqn:?
            | |- context [?a =? ?b] => destruct (a =? b) eqn:?
            end; simpl);
    try (left; reflexivity); try (right; reflexivity); exfalso;
    rewrite ?Z.ltb_lt, ?Z.ltb_ge, ?Z.eqb_eq, ?Z.eqb_neq in *;
    pose proof (Z.div_pos q dq); pose proof (Z.rem_nonneg q dq); nia.
Qed.

(** With a price and a quantity that are not negative and whose product is
    a number, the total is a number that is not negative. *)
Lemma total_nonnegative u q (l : list JsVal) :
  num_le (Finite 0) u = true -> num_le (Finite 0) q = true ->
  num_mul u q <> NaN ->
  exists r, App.bestLineTotalWithDeals u q (JArr l) = Normal r
            /\ num_le (Finite 0) (totalPence r) = true.
Proof.
  intros Hu Hq Hnum. rewrite bestLineTotalWithDeals_array.
  assert (num_le (Finite 0) (totalPence (noDeal u q)) = true) as Hbase.
  { simpl. destruct u as [| | |u], q as [| | |q]; try discriminate;
      simpl in *; try reflexivity.
    - destruct (q =? 0); [congruence|]. destruct (q <? 0) eqn:E; [lia|reflexivity].
    - destruct (u =? 0); [congruence|]. destruct (u <? 0) eqn:E; [lia|reflexivity].
    - rewrite negb_true_iff, Z.ltb_ge in *. nia. }
  destruct (num_le q (Finite 0)); [eauto|].
  eexists. split; [reflexivity|]. unfold cheapest.
  assert (forall d, In d (omap bundleFields l) -> 0 < d.1 /\ 0 <= d.2) as Hds.
  { intros [dq dp] Hd. apply In_omap_bundleFields in Hd.
    destruct Hd as (d & _ & Hwf). inversion Hwf; subst. simpl. lia. }
  revert Hbase Hds. generalize (noDeal u q).
  induction (omap bundleFields l) as [|[dq dp] ds IH]; intros best Hbest Hds;
    simpl; [exact Hbest|].
  apply IH; [|intros e He; apply Hds; now right].
  destruct (Hds (dq, dp)) as [Hdq Hdp]; [now left|]. simpl in Hdq, Hdp.
  unfold pickBest. simpl.
  destruct (num_lt _ (totalPence best)) eqn:E; [|exact Hbest].
  simpl. destruct (candidateTotal_nonnegative u q dq dp Hu Hq Hdq Hdp) as [H | H];
    [|exact H].
  rewrite H in E. discriminate.
Qed.

(** With a finite price and quantity that are not negative the total is
    finite and not negative. *)
Lemma total_finite_nonnegative (u q : Z) (l : list JsVal) :
  0 <= u -> 0 <= q ->
  exists r t, App.bestLineTotalWithDeals (Finite u) (Finite q) (JArr l) = Normal r
              /\ totalPence r = Finite t /\ 0 <= t.
Proof.
  intros Hu Hq. rewrite bestLineTotalWithDeals_array.
  assert (exists t, totalPence (noDeal (Finite u) (Finite q)) = Finite t /\ 0 <= t)
    as Hbase by (exists (u * q); split; [reflexivity|nia]).
  destruct (num_le (Finite q) (Finite 0)).
  { destruct Hbase as (t & Ht & Hpos). eauto. }
  eexists. cut (exists t, totalPence (cheapest (Finite u) (Finite q)
                                       (omap bundleFields l)) = Finite t /\ 0 <= t).
  { intros (t & Ht & Hpos). exists t. eauto. }
  unfold cheapest.
  assert (forall d, In d (omap bundleFields l) -> 0 < d.1 /\ 0 <= d.2) as Hds.
  { intros [dq dp] Hd. apply In_omap_bundleFields in Hd.
    destruct Hd as (d & _ & Hwf). inversion Hwf; subst. simpl. lia. }
  revert Hbase Hds. generalize (noDeal (Finite u) (Finite q)).
  induction (omap bundleFields l) as [|[dq dp] ds IH]; intros best Hbest Hds;
    simpl; [exact Hbest|].
  apply IH; [|intros e He; apply Hds; now right].
  destruct (Hds (dq, dp)) as [Hdq Hdp]; [now left|]. simpl in Hdq, Hdp.
  unfold pickBest. simpl.
  destruct (num_lt _ (totalPence best)); [|exact Hbest].
  simpl. rewrite candidateTotal_finite by lia. eexists. split; [reflexivity|].
  pose proof (Z.div_pos q dq Hq Hdq). pose proof (Z.rem_nonneg q dq ltac:(lia) Hq).
  nia.
Qed.

(** The filter of [src/src/App.jsx] returns on every array and keeps, in
    their order, exactly the well-formed Bundle entries. *)
Lemma app_filter_keeps_exactly_well_formed (l : list JsVal) :
  exists kept,
    Array_filter (JArr l) App.isBundleDeal = Normal kept
    /\ kept = List.filter isWellFormed l
    /\ forall d, In d kept <-> In d l /\ exists q p, WellFormedBundle d q p.
Proof.
  exists (List.filter isWellFormed l). split; [apply filterM_isBundleDeal|].
  split; [reflexivity|]. intros d. rewrite filter_In. unfold isWellFormed.
  split; intros [Hin H]; (split; [exact Hin|]).
  - destruct (bundleFields d) as [[q p]|] eqn:E; [|discriminate].
    exists q, p. now apply bundleFields_spec.
  - destruct H as (q & p & H). apply bundleFields_spec in H. now rewrite H.
Qed.

(** For any numbers at all, the total returned on a list is the baseline or
    strictly below it. *)
Lemma total_is_baseline_or_below u q (l : list JsVal) :
  exists r,
    App.bestLineTotalWithDeals u q (JArr l) = Normal r
    /\ (r = noDeal u q \/ num_lt (totalPence r) (num_mul u q) = true).
Proof.
  rewrite bestLineTotalWithDeals_array. eexists. split; [reflexivity|].
  destruct (num_le q (Finite 0)); [now left|].
  apply fold_pickBest_same_or_less.
Qed.

(** The engine throws exactly when it gets past the first test with
    something that is not an array. *)
Lemma raises_exactly_on_non_arrays u q deals :
  App.bestLineTotalWithDeals u q deals = Throw_TypeError
  <-> ToBoolean deals = true
      /\ (forall l, deals <> JArr l)
      /\ (forall len, Get deals "length" = Normal len ->
                      strict_eq_num len (Finite 0) = false)
      /\ num_le q (Finite 0) = false.
Proof.
  destruct deals as [| |b|n|s|l|props].
  1, 2: split; [discriminate|intros [H _]; discriminate].
  4: { rewrite bestLineTotalWithDeals_array.
       split; [discriminate|intros (_ & H & _); now destruct (H l)]. }
  all: unfold App.bestLineTotalWithDeals, Array_filter;
    cbn [Get mbind Completion_bind];
    destruct (ToBoolean _) eqn:Etruthy; cbn [negb];
    [|split; [discriminate|intros [H _]; discriminate]].
  all: match goal with
       | |- context [strict_eq_num ?len (Finite 0)] =>
           destruct (strict_eq_num len (Finite 0)) eqn:Elen
       end; cbn [orb].
  all: try (split; [discriminate|intros (_ & _ & H & _)];
            specialize (H _ eq_refl); cbv in H, Elen; congruence).
  all: destruct (num_le q (Finite 0));
    (split; [try discriminate; intros _
            |intros (_ & _ & _ & H); (discriminate || reflexivity)]).
  all: repeat split; try discriminate; intros len [= <-]; exact Elen.
Qed.

(** C4: whenever the quantity is at most 0, or the deals list is empty or
    absent, the engine returns exactly [unitPrice * quantity] with no deal
    description, whatever the unit price. *)
Theorem baseline_without_deals (unitPrice quantity : number) (deals : JsVal) :
  num_le quantity (Finite 0) = true
  \/ deals = JArr [] \/ deals = JUndefined \/ deals = JNull ->
  App.bestLineTotalWithDeals unitPrice quantity deals
  = Normal {| totalPence := num_mul unitPrice quantity; dealNote := None |}.
Proof.
  intros [Hq | [-> | [-> | ->]]]; try reflexivity.
  unfold App.bestLineTotalWithDeals.
  destruct (ToBoolean deals) eqn:Etruthy; simpl; [|reflexivity].
  destruct deals; simpl in *; try discriminate;
    rewrite Hq, ?orb_true_r; reflexivity.
Qed.

(** C2: for a unit price >= 0, an integer quantity and any list of deals,
    the engine returns a total that is at most the no-deal baseline
    [unitPrice * quantity]. *)
Theorem total_at_most_baseline (unitPrice quantity : Z) (l : list JsVal) :
  0 <= unitPrice ->
  exists r,
    App.bestLineTotalWithDeals (Finite unitPrice) (Finite quantity) (JArr l)
    = Normal r
    /\ num_le (totalPence r) (Finite (unitPrice * quantity)) = true.
Proof.
  intros _. rewrite bestLineTotalWithDeals_array. eexists. split; [reflexivity|].
  destruct (num_le (Finite quantity) (Finite 0)).
  { apply num_le_refl_finite. }
  unfold cheapest.
  destruct (fold_pickBest_same_or_less (Finite unitPrice) (Finite quantity)
              (omap bundleFields l) (noDeal (Finite unitPrice) (Finite quantity)))
    as [-> | H].
  - apply num_le_refl_finite.
  - apply num_lt_le in H. exact H.
Qed.

(** C3: when two well-formed bundle deals have equal candidate totals for
    the quantity, the later one is never taken (the result is the same with
    it removed from the list), and when that total is the least one and
    beats the baseline the result is that of the deal occurring first: an
    equal candidate total does not replace the best, only a strictly smaller
    one does. *)
Theorem first_deal_wins_ties (unitPrice quantity : number)
    (l1 : list JsVal) (d1 : JsVal) (l2 : list JsVal) (d2 : JsVal) (l3 : list JsVal)
    (q1 p1 q2 p2 : Z) :
  WellFormedBundle d1 q1 p1 ->
  WellFormedBundle d2 q2 p2 ->
  candidateTotal unitPrice quantity q1 p1 = candidateTotal unitPrice quantity q2 p2 ->
  App.bestLineTotalWithDeals unitPrice quantity (JArr (l1 ++ d1 :: l2 ++ d2 :: l3))
  = App.bestLineTotalWithDeals unitPrice quantity (JArr (l1 ++ d1 :: l2 ++ l3))
  /\ (num_le quantity (Finite 0) = false ->
      num_lt (candidateTotal unitPrice quantity q1 p1)
             (num_mul unitPrice quantity) = true ->
      (forall e eq ep, In e l1 -> WellFormedBundle e eq ep ->
         num_lt (candidateTotal unitPrice quantity q1 p1)
                (candidateTotal unitPrice quantity eq ep) = true) ->
      (forall e eq ep, In e (l2 ++ l3) -> WellFormedBundle e eq ep ->
         num_lt (candidateTotal unitPrice quantity eq ep)
                (candidateTotal unitPrice quantity q1 p1) = false) ->
      App.bestLineTotalWithDeals unitPrice quantity (JArr (l1 ++ d1 :: l2 ++ d2 :: l3))
      = Normal (candidateLine unitPrice quantity q1 p1)).
Proof.
  intros H1 H2 Hc. split.
  - now apply later_tie_is_never_taken with q1 p1 q2 p2.
  - intros Hq Hbase Hpre Hpost.
    apply first_minimum_wins; auto.
    intros e eq ep He Hwf. apply in_app_iff in He.
    destruct He as [He | [<- | He]].
    + apply (Hpost e); [apply in_app_iff; now left|exact Hwf].
    + destruct (WellFormedBundle_fields _ _ _ _ _ H2 Hwf) as [-> ->].
      rewrite <- Hc. apply num_lt_irrefl.
    + apply (Hpost e); [apply in_app_iff; now right|exact Hwf].
Qed.

(** C7, amended: the engine never raises when [deals] is absent
    ([undefined] or [null]) or a list, whatever the entries of the list
    (malformed ones included) and whatever numbers the price and the
    quantity are; and when the unit price and the quantity are >= 0 the
    total it returns is a number >= 0.  The one exception is a price and a
    quantity whose product is not a number (infinity times 0, which no
    finite price and quantity give): the total is then NaN. *)
Theorem returns_nonnegative_on_lists (deals : JsVal) :
  deals = JUndefined \/ deals = JNull \/ (exists l, deals = JArr l) ->
  forall unitPrice quantity : number,
    exists r,
      App.bestLineTotalWithDeals unitPrice quantity deals = Normal r
      /\ (num_le (Finite 0) unitPrice = true ->
          num_le (Finite 0) quantity = true ->
          num_mul unitPrice quantity <> NaN ->
          num_le (Finite 0) (totalPence r) = true).
Proof.
  intros Hdeals u q.
  destruct (returns_on_lists u q deals Hdeals) as [r Hr].
  exists r. split; [exact Hr|]. intros Hu Hq Hnum.
  destruct Hdeals as [-> | [-> | [l ->]]].
  - injection Hr as <-. destruct (total_nonnegative u q [] Hu Hq Hnum) as (r & Hr & H).
    rewrite bestLineTotalWithDeals_array in Hr. simpl in Hr.
    destruct (num_le q (Finite 0)); injection Hr as <-; exact H.
  - injection Hr as <-. destruct (total_nonnegative u q [] Hu Hq Hnum) as (r & Hr & H).
    rewrite bestLineTotalWithDeals_array in Hr. simpl in Hr.
    destruct (num_le q (Finite 0)); injection Hr as <-; exact H.
  - destruct (total_nonnegative u q l Hu Hq Hnum) as (r' & Hr' & H).
    rewrite Hr in Hr'. injection Hr' as <-. exact H.
Qed.

(** C1: the filter of [src/unnamed/part_000] keeps an entry whose bundle
    price is [null] (and one whose trigger quantity is [Infinity]); neither
    is a well-formed Bundle entry, and the filter of [src/src/App.jsx]
    drops both. *)
Theorem part000_filter_keeps_malformed :
  let no_price := JObj [("type", JStr "bundle"); ("qty", JNum (Finite 3));
                        ("pricePence", JNull)] in
  let endless := JObj [("type", JStr "bundle"); ("qty", JNum PosInf);
                       ("pricePence", JNum (Finite 700))] in
  Array_filter (JArr [no_price; endless]) Part000.isBundleDeal
  = Normal [no_price; endless]
  /\ Array_filter (JArr [no_price; endless]) App.isBundleDeal = Normal []
  /\ (forall q p, ~ WellFormedBundle no_price q p)
  /\ (forall q p, ~ WellFormedBundle endless q p).
Proof.
  repeat split; try reflexivity; intros q p H; apply bundleFields_spec in H;
    discriminate.
Qed.

(** C8: on a deal whose bundle price is [null] the two implementations
    differ: [src/src/App.jsx] drops the deal and charges the baseline,
    [src/unnamed/part_000] applies it at a bundle price of 0. *)
Theorem implementations_differ_on_null_price :
  let deals := JArr [JObj [("type", JStr "bundle"); ("qty", JNum (Finite 3));
                           ("pricePence", JNull)]] in
  App.bestLineTotalWithDeals (Finite 290) (Finite 3) deals
  = Normal {| totalPence := Finite 870; dealNote := None |}
  /\ Part000.bestLineTotalWithDeals (Finite 290) (Finite 3) deals
     = Normal {| totalPence := Finite 0;
                 dealNote := Some ("3 for " +:+ GBP_format_pence (Finite 0) +:+ " × 1") |}.
Proof. split; reflexivity. Qed.

(** The two implementations share everything but the filter: they agree on
    every list on which their filters agree. *)
Lemma implementations_agree_when_filters_agree u q (l : list JsVal) :
  (forall d, In d l -> Part000.isBundleDeal d = App.isBundleDeal d) ->
  Part000.bestLineTotalWithDeals u q (JArr l)
  = App.bestLineTotalWithDeals u q (JArr l).
Proof.
  intros H. unfold Part000.bestLineTotalWithDeals, App.bestLineTotalWithDeals.
  unfold Array_filter.
  assert (filterM Part000.isBundleDeal l = filterM App.isBundleDeal l) as ->.
  { induction l as [|d l IH]; simpl; [reflexivity|].
    rewrite H by now left. rewrite IH; [reflexivity|].
    intros e He. apply H. now right. }
  reflexivity.
Qed.

(** The filters agree on every entry whose quantity and price are finite
    numbers. *)
Lemma filters_agree_on_finite_fields (props : list (string * JsVal)) :
  Number_isFinite (lookup_prop "qty" props) = true ->
  Number_isFinite (lookup_prop "pricePence" props) = true ->
  Part000.isBundleDeal (JObj props) = App.isBundleDeal (JObj props).
Proof.
  intros Hq Hp. unfold Part000.isBundleDeal, App.isBundleDeal.
  cbn [ToBoolean Get mbind Completion_bind].
  destruct (strict_eq_str (lookup_prop "type" props) "bundle"); [|reflexivity].
  rewrite Hq, Hp. reflexivity.
Qed.
End AppEngine.

(** C7 as stated fails: a [deals] value that is a single deal object rather
    than a list gets past the first test ([deals.length] is [undefined], not
    0) and [deals.filter] is not a function. *)
Lemma deals_object_raises :
  @App.bestLineTotalWithDeals browser (Finite 290) (Finite 3)
    (JObj [("type", JStr "bundle"); ("qty", JNum (Finite 3));
           ("pricePence", JNum (Finite 700))])
  = Throw_TypeError.
Proof. reflexivity. Qed.

(** The product of the price and the quantity is not a number when one is
    infinite and the other 0; the total is then NaN, with or without deals. *)
Example infinite_price_times_zero :
  @App.bestLineTotalWithDeals browser PosInf (Finite 0) JUndefined
  = Normal {| totalPence := NaN; dealNote := None |}
  /\ @App.bestLineTotalWithDeals browser (Finite 0) PosInf
       (JArr [bundle (JInt 3) (JInt 700)])
     = Normal {| totalPence := NaN; dealNote := None |}.
Proof. split; reflexivity. Qed.

Lemma returns_nonnegative_on_lists_witness :
  exists r,
    @App.bestLineTotalWithDeals browser (Finite 290) (Finite 4)
      (JArr [JNull; bundle (JInt 3) (JStr "abc"); bundle (JInt 3) (JInt 700)])
    = Normal r
    /\ num_le (Finite 0) (totalPence r) = true.
Proof.
  destruct (@returns_nonnegative_on_lists browser
              (JArr [JNull; bundle (JInt 3) (JStr "abc");
                     bundle (JInt 3) (JInt 700)])
              (or_intror (or_intror (ex_intro _ _ eq_refl)))
              (Finite 290) (Finite 4)) as (r & Hr & Hpos).
  exists r. split; [exact Hr|].
  apply Hpos; [reflexivity|reflexivity|discriminate].
Defined.

Lemma baseline_without_deals_witness :
  @App.bestLineTotalWithDeals browser (Finite 290) (Finite 0)
    (JArr [bundle (JInt 3) (JInt 700)])
  = Normal {| totalPence := Finite 0; dealNote := None |}.
Proof.
  apply (@baseline_without_deals browser (Finite 290) (Finite 0)
           (JArr [bundle (JInt 3) (JInt 700)])).
  left. reflexivity.
Defined.

Lemma total_at_most_baseline_witness :
  exists r,
    @App.bestLineTotalWithDeals browser (Finite 290) (Finite 4)
      (JArr [bundle (JInt 3) (JInt 700)]) = Normal r
    /\ num_le (totalPence r) (Finite (290 * 4)) = true.
Proof.
  apply (@total_at_most_baseline browser 290 4 [bundle (JInt 3) (JInt 700)]).
  lia.
Defined.

Lemma first_deal_wins_ties_witness :
  @App.bestLineTotalWithDeals browser (Finite 100) (Finite 6)
    (JArr [bundle (JInt 2) (JInt 150); bundle (JInt 3) (JInt 225)])
  = Normal {| totalPence := Finite 450; dealNote := Some "2 for £1.50 × 3" |}.
Proof.
  refine (proj2 (@first_deal_wins_ties browser (Finite 100) (Finite 6)
                   [] (bundle (JInt 2) (JInt 150)) [] (bundle (JInt 3) (JInt 225)) []
                   2 150 3 225 _ _ _) _ _ _ _).
  - constructor; simpl; (reflexivity || lia).
  - constructor; simpl; (reflexivity || lia).
  - reflexivity.
  - reflexivity.
  - reflexivity.
  - intros e eq ep [].
  - intros e eq ep [].
Defined.

(** ** The catalog resolver *)

(** C5: a product that carries a non-empty unit list and a non-empty price
    mapping of its own resolves to exactly those, whatever the band lookup
    holds and whatever band the product refers to. *)
Theorem own_units_and_prices_win (byId : gmap string Band.t) (product : Product.t)
    (units : list string) (prices : gmap string Z) :
  Product.units product = Some units -> units <> [] ->
  Product.pricesPence product = Some prices -> prices <> ∅ ->
  resolveUnitsAndPrices byId product = Resolved.mk units prices
  /\ forall (byId' : gmap string Band.t) (bandId' : option string),
       resolveUnitsAndPrices byId' (withBandId bandId' product)
       = Resolved.mk units prices.
Proof.
  intros Hu _ Hp _. unfold resolveUnitsAndPrices. split.
  - now rewrite Hp, Hu.
  - intros byId' bandId'. simpl. now rewrite Hp, Hu.
Qed.

Lemma own_units_and_prices_win_witness :
  resolveUnitsAndPrices (bandById [premium]) bombs
  = Resolved.mk ["One"] {["One" := 290]}.
Proof.
  refine (proj1 (own_units_and_prices_win (bandById [premium]) bombs
                   ["One"] {["One" := 290]} _ _ _ _)).
  - reflexivity.
  - discriminate.
  - reflexivity.
  - apply insert_non_empty.
Defined.

(** C6: a product without units and prices of its own, whose band reference
    is missing or has no entry in the band lookup, resolves to the single
    unit "One" priced 0.  The resolver is a total function: there is no
    error to raise. *)
Theorem dangling_band_falls_back (byId : gmap string Band.t) (product : Product.t) :
  Product.pricesPence product = None \/ Product.units product = None ->
  (forall bandId, Product.bandId product = Some bandId -> byId !! bandId = None) ->
  resolveUnitsAndPrices byId product = Resolved.mk ["One"] {["One" := 0]}.
Proof.
  intros Hown Hband. unfold resolveUnitsAndPrices.
  assert (Product.bandId product ≫= (fun bandId => byId !! bandId) = None) as Hnone.
  { destruct (Product.bandId product) as [bandId|]; simpl; [|reflexivity].
    now apply Hband. }
  rewrite Hnone.
  destruct Hown as [-> | ->]; [reflexivity|].
  destruct (Product.pricesPence product); reflexivity.
Qed.

Lemma dangling_band_falls_back_witness :
  resolveUnitsAndPrices ∅ tanqueray = Resolved.mk ["One"] {["One" := 0]}.
Proof.
  apply (dangling_band_falls_back ∅ tanqueray).
  - left. reflexivity.
  - intros bandId _. apply lookup_empty.
Defined.

(** ** The basket *)

Lemma sameLine_true productId unit pricePence l :
  sameLine productId unit pricePence l = true
  <-> lineKey l = (productId, unit, pricePence).
Proof.
  unfold sameLine, lineKey.
  rewrite !andb_true_iff, !String.eqb_eq, Z.eqb_eq.
  split; [intros [[-> ->] ->]; reflexivity|intros [= -> -> ->]; auto].
Qed.

Lemma sameLine_false productId unit pricePence l :
  sameLine productId unit pricePence l = false
  <-> lineKey l <> (productId, unit, pricePence).
Proof.
  rewrite <- sameLine_true. destruct (sameLine productId unit pricePence l);
    split; congruence.
Qed.

Lemma lineKey_with_qty l q : lineKey (Line.with_qty l q) = lineKey l.
Proof. reflexivity. Qed.

Section FindIndex.
Context {A : Type} (p : A -> bool).

Lemma findIndex_absent (l : list A) :
  (forall x, In x l -> p x = false) -> findIndex p l = -1.
Proof.
  induction l as [|x l IH]; intros H; simpl; [reflexivity|].
  rewrite (H x) by now left. rewrite IH by (intros y Hy; apply H; now right).
  reflexivity.
Qed.

Lemma findIndex_first (l : list A) :
  0 <= findIndex p l ->
  exists (pre : list A) (x : A) (post : list A),
    l = pre ++ x :: post /\ p x = true
    /\ (forall y, In y pre -> p y = false)
    /\ findIndex p l = Z.of_nat (List.length pre).
Proof.
  induction l as [|x l IH]; simpl; [lia|].
  destruct (p x) eqn:Ex.
  - intros _. exists [], x, l. repeat split; auto. intros y [].
  - destruct (findIndex p l <? 0) eqn:E; [lia|]. intros _.
    apply Z.ltb_ge in E. destruct (IH E) as (pre & y & post & -> & Hy & Hpre & Hi).
    exists (x :: pre), y, post. repeat split; auto.
    + intros z [<- | Hz]; auto.
    + rewrite Hi. simpl List.length. lia.
Qed.

Lemma findIndex_none (l : list A) :
  findIndex p l < 0 -> forall x, In x l -> p x = false.
Proof.
  induction l as [|x l IH]; simpl; [intros _ y []|].
  destruct (p x) eqn:Ex; [lia|].
  destruct (findIndex p l <? 0) eqn:E.
  - intros _ y [<- | Hy]; [exact Ex|]. apply IH; [now apply Z.ltb_lt|exact Hy].
  - apply Z.ltb_ge in E. lia.
Qed.
End FindIndex.

(** [basket.map((l, i) => ...)] rewrites the element at one index. *)
Lemma imap_off_target {A} (f : A -> A) (target : Z) (l : list A) :
  forall g : nat -> Z,
    (forall i, g i <> target) ->
    imap (fun i y => if g i =? target then f y else y) l = l.
Proof.
  induction l as [|y l IH]; intros g Hg; simpl; [reflexivity|].
  rewrite (proj2 (Z.eqb_neq _ _) (Hg 0%nat)). f_equal.
  apply (IH (g ∘ S)). intros i. apply Hg.
Qed.

Lemma imap_at {A} (f : A -> A) (target : Z) (pre : list A) (x : A) (post : list A) :
  forall g : nat -> Z,
    (forall i, g i = target <-> i = List.length pre) ->
    imap (fun i y => if g i =? target then f y else y) (pre ++ x :: post)
    = pre ++ f x :: post.
Proof.
  induction pre as [|y pre IH]; intros g Hg; simpl.
  - rewrite (proj2 (Z.eqb_eq _ _) (proj2 (Hg 0%nat) eq_refl)). f_equal.
    apply (imap_off_target f target post (g ∘ S)).
    intros i E. apply Hg in E. discriminate.
  - assert ((g 0%nat =? target) = false) as ->.
    { apply Z.eqb_neq. intros E. apply Hg in E. discriminate. }
    f_equal. apply (IH (g ∘ S)). intros i. unfold compose. rewrite Hg. simpl. lia.
Qed.

Section AddToBasket.
Variables (uid : string) (product : Product.t) (unit : string) (t : Till).

(** A line with the key is there: the first such line gains one. *)
Lemma addToBasket_existing (pre : list Line.t) (x : Line.t) (post : list Line.t) :
  basket t = pre ++ x :: post ->
  lineKey x = keyOf (state t) product unit ->
  (forall y, In y pre -> lineKey y <> keyOf (state t) product unit) ->
  basket (addToBasket uid product unit t)
  = pre ++ Line.with_qty x (Line.qty x + 1) :: post
  /\ lastAddKey (addToBasket uid product unit t) = Some (Line.key x).
Proof.
  intros Hb Hx Hpre. unfold addToBasket.
  assert (findIndex (sameLine (Product.id product) unit
                       (resolvedPrice (state t) product unit)) (basket t)
          = Z.of_nat (List.length pre)) as Hi.
  { rewrite Hb. clear Hb. induction pre as [|y pre IH]; simpl.
    - now rewrite (proj2 (sameLine_true _ _ _ x) Hx).
    - rewrite (proj2 (sameLine_false _ _ _ y)) by (apply Hpre; now left).
      rewrite IH by (intros z Hz; apply Hpre; now right).
      destruct (Z.of_nat (List.length pre) <? 0) eqn:E; lia. }
  rewrite Hi. destruct (0 <=? Z.of_nat (List.length pre)) eqn:E; [|lia].
  simpl. rewrite Hb, (imap_at _ _ pre x post Z.of_nat) by (intros i; lia).
  split; [reflexivity|].
  rewrite Nat2Z.id, lookup_app_r by lia. now rewrite Nat.sub_diag.
Qed.

(** No line has the key: a new line of quantity 1 is appended. *)
Lemma addToBasket_fresh :
  (forall y, In y (basket t) -> lineKey y <> keyOf (state t) product unit) ->
  exists line,
    basket (addToBasket uid product unit t) = basket t ++ [line]
    /\ lineKey line = keyOf (state t) product unit
    /\ Line.qty line = 1 /\ Line.key line = uid.
Proof.
  intros H. unfold addToBasket.
  rewrite findIndex_absent by (intros y Hy; apply sameLine_false, H, Hy).
  simpl. eexists. split; [reflexivity|]. repeat split.
Qed.

(** Either way, the keys of the basket: unchanged when the key was there,
    extended by it when not; the key is there afterwards. *)
Lemma addToBasket_keys :
  (List.map lineKey (basket (addToBasket uid product unit t))
   = List.map lineKey (basket t)
   /\ In (keyOf (state t) product unit) (List.map lineKey (basket t)))
  \/ (List.map lineKey (basket (addToBasket uid product unit t))
      = List.map lineKey (basket t) ++ [keyOf (state t) product unit]
      /\ ~ In (keyOf (state t) product unit) (List.map lineKey (basket t))).
Proof.
  destruct (Z.le_gt_cases 0
              (findIndex (sameLine (Product.id product) unit
                            (resolvedPrice (state t) product unit)) (basket t)))
    as [Hi | Hi].
  - left. destruct (findIndex_first _ _ Hi) as (pre & x & post & Hb & Hx & Hpre & _).
    apply sameLine_true in Hx.
    destruct (addToBasket_existing pre x post Hb Hx) as [-> _].
    { intros y Hy. apply sameLine_false, Hpre, Hy. }
    rewrite Hb, !map_app. simpl. split; [reflexivity|].
    apply in_app_iff. right. left. exact Hx.
  - right.
    assert (forall y, In y (basket t) -> lineKey y <> keyOf (state t) product unit) as Hnone.
    { intros y Hy. apply sameLine_false.
      apply findIndex_none with (l := basket t); (lia || exact Hy). }
    destruct (addToBasket_fresh Hnone) as (line & -> & Hk & _).
    rewrite map_app. simpl. rewrite Hk. split; [reflexivity|].
    intros Hin. apply in_map_iff in Hin. destruct Hin as (y & Hy & Hin).
    now apply (Hnone y).
Qed.

Lemma addToBasket_keeps_one_line_per_key :
  OneLinePerKey (basket t) -> OneLinePerKey (basket (addToBasket uid product unit t)).
Proof.
  unfold OneLinePerKey. intros H.
  destruct addToBasket_keys as [[-> _] | [-> Hnew]]; [exact H|].
  apply NoDup_app. split; [exact H|]. split.
  - intros x Hx Hk. apply list_elem_of_In in Hx, Hk.
    destruct Hk as [<- | []]. contradiction.
  - apply NoDup_singleton.
Qed.

Lemma addToBasket_keeps_quantities_positive :
  QtyPositive (basket t) -> QtyPositive (basket (addToBasket uid product unit t)).
Proof.
  unfold QtyPositive. intros H.
  destruct (Z.le_gt_cases 0
              (findIndex (sameLine (Product.id product) unit
                            (resolvedPrice (state t) product unit)) (basket t)))
    as [Hi | Hi].
  - destruct (findIndex_first _ _ Hi) as (pre & x & post & Hb & Hx & Hpre & _).
    apply sameLine_true in Hx.
    destruct (addToBasket_existing pre x post Hb Hx) as [-> _].
    { intros y Hy. apply sameLine_false, Hpre, Hy. }
    rewrite Hb in H. apply Forall_app in H. destruct H as [H1 H2].
    apply Forall_cons in H2. destruct H2 as [Hx' H2].
    apply Forall_app. split; [exact H1|]. apply Forall_cons. split; [simpl; lia|exact H2].
  - assert (forall y, In y (basket t) -> lineKey y <> keyOf (state t) product unit) as Hnone.
    { intros y Hy. apply sameLine_false.
      apply findIndex_none with (l := basket t); (lia || exact Hy). }
    destruct (addToBasket_fresh Hnone) as (line & -> & _ & Hq & _).
    apply Forall_app. split; [exact H|]. apply Forall_singleton. lia.
Qed.
End AddToBasket.

Lemma addToBasket_has_key uid product unit t :
  exists i l,
    basket (addToBasket uid product unit t) !! i = Some l
    /\ lineKey l = keyOf (state t) product unit.
Proof.
  assert (In (keyOf (state t) product unit)
             (List.map lineKey (basket (addToBasket uid product unit t)))) as H.
  { destruct (addToBasket_keys uid product unit t) as [[-> H] | [-> _]]; [exact H|].
    apply in_app_iff. right. now left. }
  apply in_map_iff in H. destruct H as (l & Hl & H).
  apply list_elem_of_In, list_elem_of_lookup in H. destruct H as [i Hi].
  exists i, l. auto.
Qed.

Lemma addToBasket_keeps_keys uid product unit t i l :
  basket t !! i = Some l ->
  exists l', basket (addToBasket uid product unit t) !! i = Some l'
             /\ lineKey l' = lineKey l.
Proof.
  intros H.
  assert ((lineKey <$> basket (addToBasket uid product unit t)) !! i
          = Some (lineKey l)) as Hk.
  { change (lineKey <$> basket (addToBasket uid product unit t))
      with (List.map lineKey (basket (addToBasket uid product unit t))).
    destruct (addToBasket_keys uid product unit t) as [[-> _] | [-> _]].
    - change (List.map lineKey (basket t)) with (lineKey <$> basket t).
      now rewrite list_lookup_fmap, H.
    - change (List.map lineKey (basket t)) with (lineKey <$> basket t).
      rewrite lookup_app_l by (rewrite length_fmap; eapply lookup_lt_Some, H).
      now rewrite list_lookup_fmap, H. }
  rewrite list_lookup_fmap in Hk.
  destruct (basket (addToBasket uid product unit t) !! i) as [l'|]; [|discriminate].
  exists l'. split; [reflexivity|]. simpl in Hk. congruence.
Qed.

(** The other operations add no line and change no key. *)
Lemma incQty_keeps_one_line_per_key key t :
  OneLinePerKey (basket t) -> OneLinePerKey (basket (incQty key t)).
Proof.
  unfold OneLinePerKey, incQty. simpl. rewrite List.map_map.
  erewrite List.map_ext; [intros H; exact H|].
  intros l. simpl. destruct (String.eqb (Line.key l) key); reflexivity.
Qed.

Lemma NoDup_map_filter {A B} (f : A -> B) (p : A -> bool) (l : list A) :
  NoDup (List.map f l) -> NoDup (List.map f (List.filter p l)).
Proof.
  induction l as [|x l IH]; simpl; [auto|].
  intros H. apply NoDup_cons in H. destruct H as [Hx H].
  destruct (p x); simpl; [|auto].
  apply NoDup_cons. split; [|auto].
  intros Hin. apply Hx. apply list_elem_of_In in Hin. apply list_elem_of_In.
  apply in_map_iff in Hin. destruct Hin as (y & <- & Hy).
  apply filter_In in Hy. apply in_map. tauto.
Qed.

Lemma decQty_keeps_one_line_per_key key t :
  OneLinePerKey (basket t) -> OneLinePerKey (basket (decQty key t)).
Proof.
  unfold OneLinePerKey, decQty. simpl. intros H.
  apply NoDup_map_filter. rewrite List.map_map.
  erewrite List.map_ext; [exact H|].
  intros l. simpl. destruct (String.eqb (Line.key l) key); reflexivity.
Qed.

Lemma removeLine_keeps_one_line_per_key key t :
  OneLinePerKey (basket t) -> OneLinePerKey (basket (removeLine key t)).
Proof. unfold OneLinePerKey, removeLine. simpl. apply NoDup_map_filter. Qed.

(** C9: adding a product and unit whose (product identifier, unit, resolved
    price) already keys a line of the basket adds 1 to the quantity of that
    line and appends nothing; otherwise a line of quantity 1 is appended.
    So a basket with at most one line per key still has at most one line per
    key after the add, and two adds between which the resolved price of the
    unit has changed leave two separate lines, one for each price. *)
Theorem addToBasket_groups_by_key (uid : string) (product : Product.t)
    (unit : string) (t : Till) :
  let k := keyOf (state t) product unit in
  let t' := addToBasket uid product unit t in
  (forall (pre : list Line.t) (x : Line.t) (post : list Line.t),
     basket t = pre ++ x :: post -> lineKey x = k ->
     (forall y, In y pre -> lineKey y <> k) ->
     basket t' = pre ++ Line.with_qty x (Line.qty x + 1) :: post)
  /\ ((forall y, In y (basket t) -> lineKey y <> k) ->
      exists line, basket t' = basket t ++ [line]
                   /\ lineKey line = k /\ Line.qty line = 1)
  /\ (OneLinePerKey (basket t) -> OneLinePerKey (basket t'))
  /\ (forall (uid2 : string) (product2 : Product.t) (edited : Config),
        Product.id product2 = Product.id product ->
        resolvedPrice edited product2 unit <> resolvedPrice (state t) product unit ->
        exists (i j : nat) (old new : Line.t),
          i <> j
          /\ basket (addToBasket uid2 product2 unit (setState edited t')) !! i = Some old
          /\ basket (addToBasket uid2 product2 unit (setState edited t')) !! j = Some new
          /\ lineKey old = k
          /\ lineKey new = keyOf edited product2 unit).
Proof.
  intros k t'. repeat split.
  - intros pre x post Hb Hx Hpre.
    now destruct (addToBasket_existing uid product unit t pre x post Hb Hx Hpre).
  - intros H. destruct (addToBasket_fresh uid product unit t H)
      as (line & Hb & Hk & Hq & _). eauto.
  - apply addToBasket_keeps_one_line_per_key.
  - intros uid2 product2 edited Hid Hprice.
    destruct (addToBasket_has_key uid product unit t) as (i & old & Hi & Hold).
    destruct (addToBasket_keeps_keys uid2 product2 unit (setState edited t') i old Hi)
      as (old' & Hi' & Hold').
    destruct (addToBasket_has_key uid2 product2 unit (setState edited t'))
      as (j & new & Hj & Hnew).
    simpl in Hnew.
    exists i, j, old', new. repeat split; auto.
    + intros ->. rewrite Hi' in Hj. inversion Hj; subst new.
      rewrite Hold', Hold in Hnew. unfold keyOf in Hnew. inversion Hnew.
      congruence.
    + now rewrite Hold', Hold.
Qed.

(** ** Quantities *)

Lemma incQty_keeps_quantities_positive key t :
  QtyPositive (basket t) -> QtyPositive (basket (incQty key t)).
Proof.
  unfold QtyPositive, incQty. simpl. intros H.
  apply List.Forall_forall. intros l Hl. apply in_map_iff in Hl.
  destruct Hl as (l0 & <- & Hl0).
  pose proof (proj1 (List.Forall_forall _ _) H l0 Hl0) as Hq. simpl in Hq.
  destruct (String.eqb (Line.key l0) key); simpl; lia.
Qed.

Lemma decQty_quantities_positive key t : QtyPositive (basket (decQty key t)).
Proof.
  unfold QtyPositive, decQty. simpl.
  apply List.Forall_forall. intros l Hl. apply filter_In in Hl.
  destruct Hl as [_ Hl]. apply Z.ltb_lt in Hl. lia.
Qed.

Lemma removeLine_keeps_quantities_positive key t :
  QtyPositive (basket t) -> QtyPositive (basket (removeLine key t)).
Proof.
  unfold QtyPositive, removeLine. simpl. intros H.
  apply List.Forall_forall. intros l Hl. apply filter_In in Hl.
  destruct Hl as [Hl _]. exact (proj1 (List.Forall_forall _ _) H l Hl).
Qed.

(** A decrement by a key no line has leaves a basket of positive quantities
    as it is. *)
Lemma decQty_other_keys (key : string) (b : list Line.t) :
  (forall l, In l b -> Line.key l <> key) -> QtyPositive b ->
  List.filter (fun l => 0 <? Line.qty l)
    (List.map (fun l => if String.eqb (Line.key l) key
                        then Line.with_qty l (Line.qty l - 1) else l) b) = b.
Proof.
  induction b as [|x b IH]; intros Hkeys Hpos; simpl; [reflexivity|].
  apply Forall_cons in Hpos. destruct Hpos as [Hx Hpos].
  rewrite (proj2 (String.eqb_neq _ _) (Hkeys x (or_introl eq_refl))).
  destruct (0 <? Line.qty x) eqn:E; [|apply Z.ltb_ge in E; lia].
  f_equal. apply IH; [intros l Hl; apply Hkeys; now right|exact Hpos].
Qed.

(** A decrement of the one line that has the key, at quantity 1, leaves the
    other lines. *)
Lemma decQty_drops_last_unit key t (pre : list Line.t) (l : Line.t)
    (post : list Line.t) :
  QtyPositive (basket t) ->
  basket t = pre ++ l :: post ->
  Line.key l = key -> Line.qty l = 1 ->
  (forall y, In y (pre ++ post) -> Line.key y <> key) ->
  basket (decQty key t) = pre ++ post.
Proof.
  intros Hpos Hb Hk Hq Hkeys. rewrite Hb in Hpos.
  apply Forall_app in Hpos. destruct Hpos as [Hpre Hpost].
  apply Forall_cons in Hpost. destruct Hpost as [_ Hpost].
  unfold decQty. simpl. rewrite Hb, map_app, List.filter_app. simpl.
  rewrite Hk, String.eqb_refl. simpl. rewrite Hq. simpl.
  rewrite (decQty_other_keys key pre), (decQty_other_keys key post); auto.
  - intros y Hy. apply Hkeys, in_app_iff. now right.
  - intros y Hy. apply Hkeys, in_app_iff. now left.
Qed.

(** A line that has the key after a decrement had a quantity of 2 or more
    before it. *)
Lemma decQty_survivors key t (l' : Line.t) :
  In l' (basket (decQty key t)) -> Line.key l' = key ->
  exists l, In l (basket t) /\ Line.key l = key /\ 2 <= Line.qty l
            /\ l' = Line.with_qty l (Line.qty l - 1).
Proof.
  unfold decQty. simpl. intros Hin Hk. apply filter_In in Hin.
  destruct Hin as [Hin Hq]. apply Z.ltb_lt in Hq. apply in_map_iff in Hin.
  destruct Hin as (l & Hl' & Hl).
  destruct (String.eqb (Line.key l) key) eqn:E.
  - apply String.eqb_eq in E. subst l'. simpl in Hq. exists l.
    repeat split; auto. lia.
  - apply String.eqb_neq in E. subst l'. contradiction.
Qed.

(** C10: each basket operation keeps every quantity at 1 or more; a
    decrement of a line whose quantity is 1 removes that line and leaves the
    others as they are (the line being the only one with its key); whatever
    the keys, a line that has the key after a decrement had a quantity of 2
    or more before it; and no operation leaves a line of quantity 0. *)
Theorem basket_quantities_stay_positive (uid : string) (product : Product.t)
    (unit key : string) (t : Till) :
  QtyPositive (basket t) ->
  QtyPositive (basket (addToBasket uid product unit t))
  /\ QtyPositive (basket (incQty key t))
  /\ QtyPositive (basket (decQty key t))
  /\ QtyPositive (basket (removeLine key t))
  /\ (forall (pre : list Line.t) (l : Line.t) (post : list Line.t),
        basket t = pre ++ l :: post -> Line.key l = key -> Line.qty l = 1 ->
        (forall y, In y (pre ++ post) -> Line.key y <> key) ->
        basket (decQty key t) = pre ++ post)
  /\ (forall l', In l' (basket (decQty key t)) -> Line.key l' = key ->
        exists l, In l (basket t) /\ Line.key l = key /\ 2 <= Line.qty l
                  /\ l' = Line.with_qty l (Line.qty l - 1))
  /\ (forall t' l,
        t' = addToBasket uid product unit t \/ t' = incQty key t
        \/ t' = decQty key t \/ t' = removeLine key t ->
        In l (basket t') -> Line.qty l <> 0).
Proof.
  intros H.
  pose proof (addToBasket_keeps_quantities_positive uid product unit t H) as Ha.
  pose proof (incQty_keeps_quantities_positive key t H) as Hi.
  pose proof (decQty_quantities_positive key t) as Hd.
  pose proof (removeLine_keeps_quantities_positive key t H) as Hr.
  repeat split; auto.
  - intros pre l post. now apply decQty_drops_last_unit.
  - apply decQty_survivors.
  - intros t' l Ht' Hl Hzero.
    assert (QtyPositive (basket t')) as Hpos
      by (destruct Ht' as [-> | [-> | [-> | ->]]]; assumption).
    pose proof (proj1 (List.Forall_forall _ _) Hpos l Hl) as Hq. simpl in Hq. lia.
Qed.

Lemma addToBasket_groups_by_key_witness :
  basket (addToBasket "k2" bombs "One" (addToBasket "k1" bombs "One" openingTill))
  = [Line.mk "k1" "p-bombs" "Bombs" "One" 290 2].
Proof.
  refine (proj1 (addToBasket_groups_by_key "k2" bombs "One"
                   (addToBasket "k1" bombs "One" openingTill))
            [] (Line.mk "k1" "p-bombs" "Bombs" "One" 290 1) [] _ _ _).
  - reflexivity.
  - reflexivity.
  - intros y [].
Defined.

Lemma basket_quantities_stay_positive_witness :
  basket (decQty "k1" (addToBasket "k2" tanqueray "Single"
                         (addToBasket "k1" bombs "One" openingTill)))
  = [Line.mk "k2" "p-gin1" "Tanqueray (Single)" "Single" 450 1].
Proof.
  refine (proj1 (proj2 (proj2 (proj2 (proj2
            (basket_quantities_stay_positive "k3" bombs "One" "k1"
               (addToBasket "k2" tanqueray "Single"
                  (addToBasket "k1" bombs "One" openingTill)) _)))))
            [] (Line.mk "k1" "p-bombs" "Bombs" "One" 290 1)
            [Line.mk "k2" "p-gin1" "Tanqueray (Single)" "Single" 450 1] _ _ _ _).
  - change (QtyPositive [Line.mk "k1" "p-bombs" "Bombs" "One" 290 1;
                         Line.mk "k2" "p-gin1" "Tanqueray (Single)" "Single" 450 1]).
    repeat constructor; simpl; lia.
  - reflexivity.
  - reflexivity.
  - reflexivity.
  - intros y [<- | []]. discriminate.
Defined.

(** ** Price edits and the basket *)

Lemma resolvedPrice_after_override_edit c p unit newPence units :
  Product.units p = Some units ->
  resolvedPrice c (withOverridePrice unit newPence p) unit = newPence.
Proof.
  intros Hu. unfold resolvedPrice, resolveUnitsAndPrices. simpl.
  rewrite Hu. simpl. now rewrite lookup_insert_eq.
Qed.

(** Scenario E: two adds of the same product and unit merge into one line of
    quantity 2; after the admin has edited the price of that unit the next
    add makes a second line. *)
Example scenario_E_override_price :
  let t2 := addToBasket "k2" bombs "One" (addToBasket "k1" bombs "One" openingTill) in
  let t3 := updateOverridePrice "p-bombs" "One" 300 t2 in
  basket t2 = [Line.mk "k1" "p-bombs" "Bombs" "One" 290 2]
  /\ products (state t3) = [tanqueray; withOverridePrice "One" 300 bombs]
  /\ basket (addToBasket "k3" (withOverridePrice "One" 300 bombs) "One" t3)
     = [Line.mk "k1" "p-bombs" "Bombs" "One" 290 2;
        Line.mk "k3" "p-bombs" "Bombs" "One" 300 1].
Proof. repeat split. Qed.

Example scenario_E_band_price :
  let t2 := addToBasket "k2" tanqueray "Single"
              (addToBasket "k1" tanqueray "Single" openingTill) in
  let t3 := updateBandPrice "band-premium" "Single" 500 t2 in
  basket t2 = [Line.mk "k1" "p-gin1" "Tanqueray (Single)" "Single" 450 2]
  /\ basket (addToBasket "k3" tanqueray "Single" t3)
     = [Line.mk "k1" "p-gin1" "Tanqueray (Single)" "Single" 450 2;
        Line.mk "k3" "p-gin1" "Tanqueray (Single)" "Single" 500 1].
Proof. split; vm_compute; reflexivity. Qed.

(** Decrementing the only unit of a line empties the basket. *)
Example decQty_removes_the_line :
  basket (decQty "k1" (addToBasket "k1" bombs "One" openingTill)) = [].
Proof. reflexivity. Qed.

(** ** The scenarios of the specification *)

Example scenario_A :
  @App.bestLineTotalWithDeals browser (Finite 290) (Finite 3)
    (JArr [bundle (JInt 3) (JInt 700)])
  = Normal {| totalPence := Finite 700; dealNote := Some "3 for £7.00 × 1" |}.
Proof. reflexivity. Qed.

Example scenario_B :
  @App.bestLineTotalWithDeals browser (Finite 290) (Finite 4)
    (JArr [bundle (JInt 3) (JInt 700)])
  = Normal {| totalPence := Finite 990; dealNote := Some "3 for £7.00 × 1" |}.
Proof. reflexivity. Qed.

Example scenario_C :
  @App.bestLineTotalWithDeals browser (Finite 700) (Finite 5)
    (JArr [bundle (JInt 2) (JInt 1200)])
  = Normal {| totalPence := Finite 3100; dealNote := Some "2 for £12.00 × 2" |}.
Proof. reflexivity. Qed.

Example scenario_D :
  resolveUnitsAndPrices (bandById []) tanqueray
  = Resolved.mk ["One"] {["One" := 0]}.
Proof. reflexivity. Qed.

Example scenario_F :
  @App.bestLineTotalWithDeals browser (Finite 290) (Finite 3)
    (JArr [bundle (JInt (-3)) (JInt 700); bundle (JInt 3) (JStr "abc"); JNull;
           JStr "bundle"; JObj [("type", JStr "bogo")]])
  = Normal {| totalPence := Finite 870; dealNote := None |}.
Proof. reflexivity. Qed.

(** The copy in [src/unnamed/part_000] also converts strings and booleans:
    a deal written with a string quantity and price is applied there. *)
Example part000_applies_string_fields :
  @Part000.bestLineTotalWithDeals browser (Finite 290) (Finite 3)
    (JArr [bundle (JStr "3") (JStr "700")])
  = Normal {| totalPence := Finite 700; dealNote := Some "3 for £7.00 × 1" |}
  /\ @App.bestLineTotalWithDeals browser (Finite 290) (Finite 3)
       (JArr [bundle (JStr "3") (JStr "700")])
     = Normal {| totalPence := Finite 870; dealNote := None |}.
Proof. split; reflexivity. Qed.

(** The total of a basket line of such a product cannot be computed: the
    render that asks for it throws. *)
Example lineTotal_raises_on_unwrapped_deal :
  let t := mkTill (mkConfig [premium] [tanqueray; bombs_unwrapped] false "1234")
             [Line.mk "k1" "p-bombs" "Bombs" "One" 290 3] None in
  @lineTotal browser t (Line.mk "k1" "p-bombs" "Bombs" "One" 290 3)
  = Throw_TypeError.
Proof. reflexivity. Qed.

Example lineTotal_applies_the_deal :
  let t := mkTill (mkConfig [premium] [tanqueray; bombs] false "1234")
             [Line.mk "k1" "p-bombs" "Bombs" "One" 290 3] None in
  @lineTotal browser t (Line.mk "k1" "p-bombs" "Bombs" "One" 290 3)
  = Normal {| totalPence := Finite 700; dealNote := Some "3 for £7.00 × 1" |}.
Proof. reflexivity. Qed.

(** * Further properties *)

(** ** The engine picks the cheapest single deal *)

Section EngineMore.
Context `{rt : JsRuntime}.

Lemma In_bundleFields_omap (l : list JsVal) e dq dp :
  In e l -> WellFormedBundle e dq dp -> In (dq, dp) (omap bundleFields l).
Proof.
  intros He Hwf. apply list_elem_of_In, list_elem_of_omap.
  exists e. split; [now apply list_elem_of_In|now apply bundleFields_spec].
Qed.

Lemma fold_pickBest_not_above_member u q ds : forall best d,
  In d ds ->
  num_lt (candidateTotal u q d.1 d.2)
         (totalPence (fold_left (pickBest u q) ds best)) = false.
Proof.
  induction ds as [|d' ds IH]; intros best d Hd; simpl; [destruct Hd|].
  destruct Hd as [-> | Hd]; [|now apply IH].
  apply fold_pickBest_not_below. destruct d as [dq dp]. simpl.
  apply pickBest_own_not_below.
Qed.

Lemma fold_pickBest_is_a_candidate u q ds : forall best,
  fold_left (pickBest u q) ds best = best
  \/ exists d, In d ds
               /\ fold_left (pickBest u q) ds best = candidateLine u q d.1 d.2.
Proof.
  induction ds as [|d ds IH]; intros best; simpl; [now left|].
  destruct (IH (pickBest u q best d)) as [-> | (e & He & ->)].
  - unfold pickBest.
    destruct (num_lt (candidateTotal u q d.1 d.2) (totalPence best));
      [right; exists d; auto|now left].
  - right. exists e. auto.
Qed.

(** X1: with a quantity above 0, no well-formed deal of the list has a candidate
    total below the total returned, and what is returned is the baseline or
    the result of one of the well-formed deals of the list. *)
Theorem result_is_the_least_candidate (unitPrice quantity : number)
    (l : list JsVal) :
  num_le quantity (Finite 0) = false ->
  exists r,
    App.bestLineTotalWithDeals unitPrice quantity (JArr l) = Normal r
    /\ (forall e dq dp, In e l -> WellFormedBundle e dq dp ->
          num_lt (candidateTotal unitPrice quantity dq dp) (totalPence r) = false)
    /\ (r = noDeal unitPrice quantity
        \/ exists e dq dp, In e l /\ WellFormedBundle e dq dp
                           /\ r = candidateLine unitPrice quantity dq dp).
Proof.
  intros Hq. rewrite bestLineTotalWithDeals_array, Hq.
  eexists. split; [reflexivity|]. unfold cheapest. split.
  - intros e dq dp He Hwf.
    apply (fold_pickBest_not_above_member unitPrice quantity _ _ (dq, dp)).
    now apply In_bundleFields_omap with e.
  - destruct (fold_pickBest_is_a_candidate unitPrice quantity
                (omap bundleFields l) (noDeal unitPrice quantity))
      as [-> | ([dq dp] & Hd & ->)]; [now left|].
    right. apply In_omap_bundleFields in Hd. destruct Hd as (e & He & Hwf).
    exists e, dq, dp. auto.
Qed.
End EngineMore.

Lemma result_is_the_least_candidate_witness :
  exists r,
    @App.bestLineTotalWithDeals browser (Finite 100) (Finite 6)
      (JArr [bundle (JInt 2) (JInt 150); bundle (JInt 3) (JInt 200)]) = Normal r
    /\ (forall e dq dp,
          In e [bundle (JInt 2) (JInt 150); bundle (JInt 3) (JInt 200)] ->
          WellFormedBundle e dq dp ->
          num_lt (candidateTotal (Finite 100) (Finite 6) dq dp) (totalPence r)
          = false)
    /\ (r = noDeal (Finite 100) (Finite 6)
        \/ exists e dq dp,
             In e [bundle (JInt 2) (JInt 150); bundle (JInt 3) (JInt 200)]
             /\ WellFormedBundle e dq dp
             /\ r = @candidateLine browser (Finite 100) (Finite 6) dq dp).
Proof.
  apply (@result_is_the_least_candidate browser (Finite 100) (Finite 6)
           [bundle (JInt 2) (JInt 150); bundle (JInt 3) (JInt 200)]).
  reflexivity.
Defined.

(** ** The description says whether a deal lowered the total *)

Lemma candidate_without_a_bundle u q dq dp :
  num_le q (Finite 0) = false -> 0 < dq ->
  num_gt (bundleCount q dq) (Finite 0) = false ->
  num_lt (candidateTotal u q dq dp) (num_mul u q) = false.
Proof.
  intros Hq Hdq Hb. unfold candidateTotal, bundleCount in *.
  destruct q as [| | |z]; simpl in *; try reflexivity; try discriminate.
  - destruct (dq <? 0) eqn:E; [lia|]. simpl in Hb. discriminate.
  - apply negb_false_iff, Z.ltb_lt in Hq.
    destruct (dq =? 0) eqn:E; [lia|]. unfold num_gt in Hb. simpl in Hb.
    apply Z.ltb_ge in Hb.
    assert (z < dq) as Hsmall.
    { destruct (Z.lt_ge_cases z dq) as [H | H]; [exact H|].
      pose proof (Z.div_str_pos z dq ltac:(lia)). lia. }
    rewrite Z.div_small, Z.rem_small by lia.
    destruct u as [| | |x]; simpl; try reflexivity.
    + destruct (z =? 0) eqn:Ez; [lia|]. simpl. destruct (z <? 0); reflexivity.
    + destruct (z =? 0) eqn:Ez; [lia|]. simpl. destruct (0 <? z); reflexivity.
    + apply Z.ltb_ge. lia.
Qed.

Section DealNote.
Context `{rt : JsRuntime}.

Lemma pickBest_note u q best d :
  num_le q (Finite 0) = false -> 0 < d.1 ->
  best = noDeal u q
  \/ (is_Some (dealNote best) /\ num_lt (totalPence best) (num_mul u q) = true) ->
  pickBest u q best d = noDeal u q
  \/ (is_Some (dealNote (pickBest u q best d))
      /\ num_lt (totalPence (pickBest u q best d)) (num_mul u q) = true).
Proof.
  intros Hq Hd Hbest. unfold pickBest.
  destruct (num_lt (candidateTotal u q d.1 d.2) (totalPence best)) eqn:E;
    [|exact Hbest].
  assert (num_lt (candidateTotal u q d.1 d.2) (num_mul u q) = true) as Hbelow.
  { destruct Hbest as [-> | [_ H]]; [exact E|]. eapply num_lt_trans; eauto. }
  right. split; [|exact Hbelow]. unfold candidateLine. cbn [dealNote].
  destruct (num_gt (bundleCount q d.1) (Finite 0)) eqn:Eb;
    [eexists; reflexivity|].
  rewrite (candidate_without_a_bundle u q d.1 d.2 Hq Hd Eb) in Hbelow.
  discriminate.
Qed.

Lemma fold_pickBest_note u q ds : forall best,
  num_le q (Finite 0) = false ->
  (forall d, In d ds -> 0 < d.1) ->
  best = noDeal u q
  \/ (is_Some (dealNote best) /\ num_lt (totalPence best) (num_mul u q) = true) ->
  fold_left (pickBest u q) ds best = noDeal u q
  \/ (is_Some (dealNote (fold_left (pickBest u q) ds best))
      /\ num_lt (totalPence (fold_left (pickBest u q) ds best)) (num_mul u q)
         = true).
Proof.
  induction ds as [|d ds IH]; intros best Hq Hds Hbest; simpl; [exact Hbest|].
  apply IH; [exact Hq|intros e He; apply Hds; now right|].
  apply pickBest_note; auto. apply Hds. now left.
Qed.

(** X2: on every list, the result carries a description exactly when its total
    is strictly below the baseline: a deal that is taken always has at least
    one full bundle in it. *)
Theorem note_shows_a_saving (unitPrice quantity : number) (l : list JsVal) :
  exists r,
    App.bestLineTotalWithDeals unitPrice quantity (JArr l) = Normal r
    /\ (is_Some (dealNote r)
        <-> num_lt (totalPence r) (num_mul unitPrice quantity) = true).
Proof.
  rewrite bestLineTotalWithDeals_array. eexists. split; [reflexivity|].
  assert (forall r, r = noDeal unitPrice quantity
                    \/ (is_Some (dealNote r)
                        /\ num_lt (totalPence r) (num_mul unitPrice quantity) = true) ->
          is_Some (dealNote r)
          <-> num_lt (totalPence r) (num_mul unitPrice quantity) = true) as Hfinal.
  { intros r [-> | [H1 H2]]; [|tauto]. simpl. rewrite num_lt_irrefl.
    split; [intros [x Hx]|]; discriminate. }
  destruct (num_le quantity (Finite 0)) eqn:Hq; [apply Hfinal; now left|].
  apply Hfinal. unfold cheapest. apply fold_pickBest_note; [exact Hq| |now left].
  intros [dq dp] Hd. apply In_omap_bundleFields in Hd.
  destruct Hd as (e & _ & Hwf). inversion Hwf; subst. simpl. lia.
Qed.
End DealNote.

(** ** One deal: when it is applied, and what it saves *)

Section SingleDeal.
Context `{rt : JsRuntime}.

Lemma candidatePence_saving (u q dq dp : Z) :
  0 <= q -> 0 < dq ->
  candidatePence u q (dq, dp) = u * q - q / dq * (dq * u - dp).
Proof.
  intros Hq Hdq. unfold candidatePence. simpl.
  rewrite Z.rem_mod_nonneg by lia.
  pose proof (Z.div_mod q dq ltac:(lia)) as Hdm.
  set (k := q / dq) in *. set (m := q mod dq) in *. nia.
Qed.

(** X3: a single well-formed deal is applied exactly when at least one full
    bundle fits in the quantity and the bundle is cheaper than its units
    bought singly; it then saves, per bundle, the difference between the
    two. *)
Theorem single_deal_applies_when_it_saves (unitPrice quantity dq dp : Z)
    (d : JsVal) :
  0 < quantity -> WellFormedBundle d dq dp ->
  App.bestLineTotalWithDeals (Finite unitPrice) (Finite quantity) (JArr [d])
  = Normal (if (dq <=? quantity) && (dp <? dq * unitPrice)
            then candidateLine (Finite unitPrice) (Finite quantity) dq dp
            else noDeal (Finite unitPrice) (Finite quantity))
  /\ candidateTotal (Finite unitPrice) (Finite quantity) dq dp
     = Finite (unitPrice * quantity
               - quantity / dq * (dq * unitPrice - dp)).
Proof.
  intros Hq Hwf. pose proof Hwf as Hf. apply bundleFields_spec in Hf.
  inversion Hwf as [props q' p' _ _ Hdq _ Hdp]; subst.
  assert (candidateTotal (Finite unitPrice) (Finite quantity) dq dp
          = Finite (unitPrice * quantity
                    - quantity / dq * (dq * unitPrice - dp))) as Hc.
  { rewrite candidateTotal_finite by lia. f_equal.
    apply (candidatePence_saving unitPrice quantity dq dp); lia. }
  split; [|exact Hc].
  rewrite bestLineTotalWithDeals_array.
  assert (num_le (Finite quantity) (Finite 0) = false) as ->.
  { simpl. apply negb_false_iff, Z.ltb_lt. lia. }
  unfold cheapest. cbn [omap list_omap]. rewrite Hf. cbn [fold_left].
  unfold pickBest. cbn [fst snd]. rewrite Hc.
  cbn [noDeal totalPence num_lt num_mul]. f_equal.
  assert ((unitPrice * quantity - quantity / dq * (dq * unitPrice - dp)
           <? unitPrice * quantity)
          = (dq <=? quantity) && (dp <? dq * unitPrice)) as ->; [|reflexivity].
  pose proof (Z.div_pos quantity dq ltac:(lia) Hdq) as Hk.
  destruct (dq <=? quantity) eqn:E1; simpl.
  - apply Z.leb_le in E1.
    pose proof (Z.div_str_pos quantity dq ltac:(lia)) as Hk1.
    destruct (dp <? dq * unitPrice) eqn:E2.
    + apply Z.ltb_lt in E2. apply Z.ltb_lt. nia.
    + apply Z.ltb_ge in E2. apply Z.ltb_ge. nia.
  - apply Z.leb_gt in E1. rewrite Z.div_small by lia. apply Z.ltb_ge. lia.
Qed.
End SingleDeal.

Lemma single_deal_applies_when_it_saves_witness :
  @App.bestLineTotalWithDeals browser (Finite 290) (Finite 4)
    (JArr [bundle (JInt 3) (JInt 700)])
  = Normal {| totalPence := Finite 990; dealNote := Some "3 for £7.00 × 1" |}.
Proof.
  refine (proj1 (@single_deal_applies_when_it_saves browser 290 4 3 700
                   (bundle (JInt 3) (JInt 700)) _ _)).
  - lia.
  - constructor; simpl; (reflexivity || lia).
Defined.

(** ** The total does not depend on the order of the deals *)

Lemma fold_left_min_Permutation (l l' : list Z) :
  Permutation l l' -> forall b, fold_left Z.min l b = fold_left Z.min l' b.
Proof.
  induction 1 as [|x l l' _ IH|x y l|l l' l'' _ IH1 _ IH2]; intros b; simpl.
  - reflexivity.
  - apply IH.
  - f_equal. lia.
  - now rewrite IH1.
Qed.

Section DealOrder.
Context `{rt : JsRuntime}.

Lemma fold_pickBest_is_min (u q : Z) ds : forall best b,
  (forall d, In d ds -> d.1 <> 0) ->
  totalPence best = Finite b ->
  totalPence (fold_left (pickBest (Finite u) (Finite q)) ds best)
  = Finite (fold_left Z.min (List.map (candidatePence u q) ds) b).
Proof.
  induction ds as [|[dq dp] ds IH]; intros best b Hds Hb; simpl; [exact Hb|].
  apply IH; [intros e He; apply Hds; now right|].
  unfold pickBest. cbn [fst snd].
  rewrite candidateTotal_finite by (apply (Hds (dq, dp)); now left).
  rewrite Hb. cbn [num_lt]. unfold candidatePence. cbn [fst snd].
  destruct (_ <? b) eqn:E.
  - cbn [candidateLine totalPence].
    rewrite candidateTotal_finite by (apply (Hds (dq, dp)); now left).
    f_equal. apply Z.ltb_lt in E. lia.
  - rewrite Hb. f_equal. apply Z.ltb_ge in E. lia.
Qed.

(** X4: with an integer price and quantity, the total is the least of the
    baseline and the candidate totals of the well-formed deals, so listing
    the same deals in another order gives the same total (the description
    may differ on a tie). *)
Theorem total_ignores_the_order_of_deals (unitPrice quantity : Z)
    (l l' : list JsVal) :
  Permutation l l' ->
  exists r r',
    App.bestLineTotalWithDeals (Finite unitPrice) (Finite quantity) (JArr l)
    = Normal r
    /\ App.bestLineTotalWithDeals (Finite unitPrice) (Finite quantity) (JArr l')
       = Normal r'
    /\ totalPence r = totalPence r'.
Proof.
  intros Hperm. rewrite !bestLineTotalWithDeals_array.
  eexists. eexists. split; [reflexivity|]. split; [reflexivity|].
  destruct (num_le (Finite quantity) (Finite 0)); [reflexivity|].
  unfold cheapest.
  assert (forall k : list JsVal, forall d, In d (omap bundleFields k) -> d.1 <> 0)
    as Hnz.
  { intros k [dq dp] Hd. apply In_omap_bundleFields in Hd.
    destruct Hd as (e & _ & Hwf). inversion Hwf; subst. simpl. lia. }
  rewrite (fold_pickBest_is_min unitPrice quantity (omap bundleFields l)
             (noDeal (Finite unitPrice) (Finite quantity))
             (unitPrice * quantity) (Hnz l) eq_refl).
  rewrite (fold_pickBest_is_min unitPrice quantity (omap bundleFields l')
             (noDeal (Finite unitPrice) (Finite quantity))
             (unitPrice * quantity) (Hnz l') eq_refl).
  f_equal. apply fold_left_min_Permutation.
  apply Permutation_map. now apply omap_Permutation.
Qed.
End DealOrder.

Lemma total_ignores_the_order_of_deals_witness :
  exists r r',
    @App.bestLineTotalWithDeals browser (Finite 100) (Finite 6)
      (JArr [bundle (JInt 2) (JInt 150); bundle (JInt 3) (JInt 200)]) = Normal r
    /\ @App.bestLineTotalWithDeals browser (Finite 100) (Finite 6)
         (JArr [bundle (JInt 3) (JInt 200); bundle (JInt 2) (JInt 150)])
       = Normal r'
    /\ totalPence r = totalPence r'.
Proof.
  apply (@total_ignores_the_order_of_deals browser 100 6
           [bundle (JInt 2) (JInt 150); bundle (JInt 3) (JInt 200)]
           [bundle (JInt 3) (JInt 200); bundle (JInt 2) (JInt 150)]).
  apply perm_swap.
Defined.

(** ** The copy in [src/unnamed/part_000] *)

(** What converts: every primitive, and an object exactly when it has no
    [toString] entry of its own. *)
Lemma converts_primitive v :
  (forall l, v <> JArr l) -> (forall props, v <> JObj props) -> converts v = true.
Proof.
  intros Ha Ho. destruct v as [| |b|n|s|l|props]; try reflexivity.
  - destruct b; reflexivity.
  - now destruct (Ha l).
  - now destruct (Ho props).
Qed.

Lemma converts_object props :
  converts (JObj props) = negb (has_own "toString" props).
Proof. unfold converts. simpl. destruct (has_own "toString" props); reflexivity. Qed.

Section Part000More.
Context `{rt : JsRuntime}.

Lemma ToNumber_converts v : converts v = true -> exists n, ToNumber v = Normal n.
Proof.
  unfold converts, ToNumber.
  destruct v as [| |b|n|s|l|props]; try (intros _; eexists; reflexivity);
    destruct (ToString _); try discriminate; intros _; eexists; reflexivity.
Qed.

Lemma ToNumber_throws v : converts v = false -> ToNumber v = Throw_TypeError.
Proof.
  unfold converts, ToNumber.
  destruct v as [| |b|n|s|l|props]; try discriminate;
    try (destruct b; discriminate);
    destruct (ToString _); try discriminate; reflexivity.
Qed.

Lemma formatPence_converts v : converts v = true -> exists s, formatPence v = Normal s.
Proof.
  intros H. unfold formatPence.
  destruct (ToBoolean v); [|eexists; reflexivity].
  destruct (ToNumber_converts v H) as [n ->]. eexists. reflexivity.
Qed.

Lemma tagged_bundle ty : strict_eq_str ty "bundle" = true -> ty = JStr "bundle".
Proof.
  destruct ty as [| | | |t| |]; try discriminate. simpl. intros H.
  apply String.eqb_eq in H. now subst.
Qed.

Lemma part000_isBundleDeal_returns d :
  (forall props, d = JObj props -> lookup_prop "type" props = JStr "bundle" ->
     ConvertibleFields props) ->
  exists b, Part000.isBundleDeal d = Normal b
            /\ (b = true -> exists props, d = JObj props /\ ConvertibleFields props).
Proof.
  intros H. unfold Part000.isBundleDeal.
  destruct d as [| |b|n|s|l|props];
    try (eexists; split; [reflexivity|discriminate]).
  - destruct b; eexists; (split; [reflexivity|discriminate]).
  - destruct (ToBoolean (JNum n)); eexists; (split; [reflexivity|discriminate]).
  - destruct (ToBoolean (JStr s)); eexists; (split; [reflexivity|discriminate]).
  - cbn [ToBoolean Get mbind Completion_bind].
    destruct (strict_eq_str (lookup_prop "type" props) "bundle") eqn:Etag;
      [|eexists; split; [reflexivity|discriminate]].
    assert (Hc := H props eq_refl (tagged_bundle _ Etag)).
    destruct Hc as [Hq Hp]. unfold js_gt, js_ge.
    destruct (ToNumber_converts _ Hq) as [nq ->].
    cbn [mbind Completion_bind].
    destruct (num_gt nq (Finite 0)); [|eexists; split; [reflexivity|discriminate]].
    destruct (ToNumber_converts _ Hp) as [np ->].
    cbn [mbind Completion_bind]. eexists. split; [reflexivity|].
    intros _. exists props. split; [reflexivity|]. split; assumption.
Qed.

Lemma part000_filter_returns (l : list JsVal) :
  (forall props, In (JObj props) l -> lookup_prop "type" props = JStr "bundle" ->
     ConvertibleFields props) ->
  exists kept, filterM Part000.isBundleDeal l = Normal kept
               /\ Forall (fun d => exists props, d = JObj props
                                                 /\ ConvertibleFields props) kept.
Proof.
  induction l as [|d l IH]; intros H; simpl; [eauto|].
  destruct (part000_isBundleDeal_returns d) as (b & -> & Hb).
  { intros props ->. apply H. now left. }
  destruct IH as (kept & -> & Hkept).
  { intros props Hin. apply H. now right. }
  cbn [mbind Completion_bind]. eexists. split; [reflexivity|].
  destruct b; [|exact Hkept]. constructor; [now apply Hb|exact Hkept].
Qed.

Lemma part000_tryDeal_returns u q best props :
  ConvertibleFields props ->
  exists r, Part000.tryDeal u q best (JObj props) = Normal r
            /\ (r = best \/ num_lt (totalPence r) (totalPence best) = true).
Proof.
  intros [Hq Hp]. unfold Part000.tryDeal.
  cbn [Get mbind Completion_bind].
  destruct (ToNumber_converts _ Hq) as [nq ->].
  destruct (ToNumber_converts _ Hp) as [np ->].
  cbn [mbind Completion_bind].
  destruct (num_lt _ (totalPence best)) eqn:E;
    [|eexists; split; [reflexivity|now left]].
  destruct (num_gt _ (Finite 0));
    [|eexists; split; [reflexivity|right; exact E]].
  unfold converts in Hq.
  destruct (ToString (lookup_prop "qty" props)) as [sq|]; [|discriminate].
  destruct (formatPence_converts _ Hp) as [sp ->].
  cbn [mbind Completion_bind]. eexists. split; [reflexivity|right; exact E].
Qed.

Lemma part000_loop_returns u q ds : forall best,
  Forall (fun d => exists props, d = JObj props /\ ConvertibleFields props) ds ->
  exists r, foldM (Part000.tryDeal u q) best ds = Normal r
            /\ (r = best \/ num_lt (totalPence r) (totalPence best) = true).
Proof.
  induction ds as [|d ds IH]; intros best Hds; simpl; [eauto|].
  apply Forall_cons in Hds. destruct Hds as [(props & -> & Hd) Hds].
  destruct (part000_tryDeal_returns u q best props Hd) as (r1 & -> & H1).
  cbn [mbind Completion_bind].
  destruct (IH r1 Hds) as (r & -> & H). exists r. split; [reflexivity|].
  destruct H as [-> | H]; [exact H1|]. right.
  destruct H1 as [-> | H1]; [exact H|]. eapply num_lt_trans; eauto.
Qed.

Lemma filterM_raises {A} (f : A -> Completion bool) (l : list A) (x : A) :
  In x l -> f x = Throw_TypeError -> filterM f l = Throw_TypeError.
Proof.
  induction l as [|y l IH]; intros Hin Hx; [destruct Hin|].
  simpl. destruct Hin as [-> | Hin].
  - rewrite Hx. reflexivity.
  - rewrite (IH Hin Hx). destruct (f y); reflexivity.
Qed.

(** X5: the copy returns on every list in which the quantity and the price of
    each object tagged "bundle" convert to a primitive (numbers, strings,
    booleans and [null] always do); its total is then the baseline or
    strictly below it. *)
Theorem part000_returns_baseline_or_below (unitPrice quantity : number)
    (l : list JsVal) :
  (forall props, In (JObj props) l ->
     lookup_prop "type" props = JStr "bundle" ->
     converts (lookup_prop "qty" props) = true
     /\ converts (lookup_prop "pricePence" props) = true) ->
  exists r,
    Part000.bestLineTotalWithDeals unitPrice quantity (JArr l) = Normal r
    /\ (r = noDeal unitPrice quantity
        \/ num_lt (totalPence r) (num_mul unitPrice quantity) = true).
Proof.
  intros H. unfold Part000.bestLineTotalWithDeals, Array_filter.
  change {| totalPence := num_mul unitPrice quantity; dealNote := None |}
    with (noDeal unitPrice quantity).
  change (Get (JArr l) "length")
    with (Normal (JNum (Finite (Z.of_nat (List.length l))))).
  cbn [ToBoolean negb mbind Completion_bind].
  destruct (strict_eq_num _ _ || num_le quantity (Finite 0)); [eauto|].
  destruct (part000_filter_returns l H) as (kept & -> & Hkept).
  cbn [mbind Completion_bind].
  destruct (List.length kept =? 0)%nat; [eauto|].
  apply part000_loop_returns, Hkept.
Qed.

(** X23: with a quantity above 0, one object tagged "bundle" whose quantity
    does not convert to a primitive (an object holding a [toString] entry,
    say), or whose quantity is above 0 and whose price does not convert,
    makes the copy throw, wherever it stands in the list; the engine of
    [App.jsx] returns on the same list. *)
Theorem part000_raises_on_an_unconvertible_field (unitPrice quantity : number)
    (l : list JsVal) (props : list (string * JsVal)) :
  num_le quantity (Finite 0) = false ->
  In (JObj props) l ->
  lookup_prop "type" props = JStr "bundle" ->
  converts (lookup_prop "qty" props) = false
  \/ (js_gt (lookup_prop "qty" props) (Finite 0) = Normal true
      /\ converts (lookup_prop "pricePence" props) = false) ->
  Part000.bestLineTotalWithDeals unitPrice quantity (JArr l) = Throw_TypeError
  /\ exists r, App.bestLineTotalWithDeals unitPrice quantity (JArr l) = Normal r.
Proof.
  intros Hq Hin Ety Hbad. split.
  - unfold Part000.bestLineTotalWithDeals, Array_filter.
    change (Get (JArr l) "length")
      with (Normal (JNum (Finite (Z.of_nat (List.length l))))).
    cbn [ToBoolean negb mbind Completion_bind strict_eq_num num_eq].
    rewrite Hq, orb_false_r.
    destruct (Z.of_nat (List.length l) =? 0) eqn:E.
    { apply Z.eqb_eq in E. destruct l; [destruct Hin|simpl in E; lia]. }
    rewrite (filterM_raises _ l (JObj props) Hin); [reflexivity|].
    unfold Part000.isBundleDeal. cbn [ToBoolean Get mbind Completion_bind].
    rewrite Ety. cbn [strict_eq_str]. rewrite String.eqb_refl.
    destruct Hbad as [Hbad | [Hgt Hbad]].
    + unfold js_gt. rewrite (ToNumber_throws _ Hbad). reflexivity.
    + rewrite Hgt. cbn [mbind Completion_bind].
      unfold js_ge. rewrite (ToNumber_throws _ Hbad). reflexivity.
  - rewrite bestLineTotalWithDeals_array. eauto.
Qed.

Lemma filters_agree_off_objects d :
  (forall props, d <> JObj props) ->
  Part000.isBundleDeal d = App.isBundleDeal d.
Proof.
  intros H. destruct d as [| |b|n|s|l|props]; try reflexivity.
  now destruct (H props).
Qed.

(** X6: the two copies return the same result on every list in which each
    object tagged "bundle" has a finite number as quantity and as price. *)
Theorem copies_agree_on_numeric_deals (unitPrice quantity : number)
    (l : list JsVal) :
  (forall props, In (JObj props) l ->
     lookup_prop "type" props = JStr "bundle" ->
     Number_isFinite (lookup_prop "qty" props) = true
     /\ Number_isFinite (lookup_prop "pricePence" props) = true) ->
  Part000.bestLineTotalWithDeals unitPrice quantity (JArr l)
  = App.bestLineTotalWithDeals unitPrice quantity (JArr l).
Proof.
  intros H. apply implementations_agree_when_filters_agree.
  intros d Hd. destruct d as [| |b|n|s|k|props];
    try (apply filters_agree_off_objects; intros props; discriminate).
  unfold Part000.isBundleDeal, App.isBundleDeal.
  cbn [ToBoolean Get mbind Completion_bind].
  destruct (lookup_prop "type" props) as [| | | |ty| |] eqn:Ety; try reflexivity.
  cbn [strict_eq_str]. destruct (String.eqb ty "bundle") eqn:Etag; [|reflexivity].
  apply String.eqb_eq in Etag. subst ty.
  destruct (H props Hd Ety) as [-> ->]. reflexivity.
Qed.
End Part000More.

Lemma part000_returns_baseline_or_below_witness :
  exists r,
    @Part000.bestLineTotalWithDeals browser (Finite 290) (Finite 3)
      (JArr [bundle (JStr "3") JNull; JObj [("toString", JInt 1)]]) = Normal r
    /\ (r = noDeal (Finite 290) (Finite 3)
        \/ num_lt (totalPence r) (num_mul (Finite 290) (Finite 3)) = true).
Proof.
  apply (@part000_returns_baseline_or_below browser (Finite 290) (Finite 3)
           [bundle (JStr "3") JNull; JObj [("toString", JInt 1)]]).
  intros props [H | [H | []]] Ety.
  - injection H as <-. split; reflexivity.
  - injection H as <-. discriminate.
Defined.

Lemma part000_raises_on_an_unconvertible_field_witness :
  @Part000.bestLineTotalWithDeals browser (Finite 290) (Finite 3)
    (JArr [bundle (JInt 3) (JInt 700);
           bundle (JObj [("toString", JInt 1)]) (JInt 700)])
  = Throw_TypeError
  /\ exists r,
       @App.bestLineTotalWithDeals browser (Finite 290) (Finite 3)
         (JArr [bundle (JInt 3) (JInt 700);
                bundle (JObj [("toString", JInt 1)]) (JInt 700)])
       = Normal r.
Proof.
  apply (@part000_raises_on_an_unconvertible_field browser (Finite 290) (Finite 3)
           [bundle (JInt 3) (JInt 700);
            bundle (JObj [("toString", JInt 1)]) (JInt 700)]
           [("type", JStr "bundle"); ("qty", JObj [("toString", JInt 1)]);
            ("pricePence", JInt 700)]).
  - reflexivity.
  - right. now left.
  - reflexivity.
  - left. reflexivity.
Defined.

Lemma copies_agree_on_numeric_deals_witness :
  @Part000.bestLineTotalWithDeals browser (Finite 290) (Finite 4)
    (JArr [JNull; bundle (JInt 3) (JInt 700)])
  = @App.bestLineTotalWithDeals browser (Finite 290) (Finite 4)
      (JArr [JNull; bundle (JInt 3) (JInt 700)]).
Proof.
  apply (@copies_agree_on_numeric_deals browser (Finite 290) (Finite 4)
           [JNull; bundle (JInt 3) (JInt 700)]).
  intros props [H | [H | []]] _; [discriminate|].
  injection H as <-. split; reflexivity.
Defined.

(** ** The lookups by id *)

Section ById.
Context {A : Type} (key : A -> string).

Lemma lastWith_snoc (p : A -> bool) (l : list A) (x : A) :
  lastWith p (l ++ [x]) = if p x then Some x else lastWith p l.
Proof. unfold lastWith. rewrite rev_unit. reflexivity. Qed.

Lemma lastWith_Some (p : A -> bool) (l : list A) (x : A) :
  lastWith p l = Some x ->
  p x = true
  /\ exists (pre post : list A),
       l = pre ++ x :: post /\ forall y, In y post -> p y = false.
Proof.
  induction l as [|z l IH] using rev_ind; [discriminate|].
  rewrite lastWith_snoc. destruct (p z) eqn:Ez.
  - intros [= ->]. split; [exact Ez|]. exists l, []. split; [reflexivity|].
    intros y [].
  - intros H. destruct (IH H) as (Hx & pre & post & -> & Hpost).
    split; [exact Hx|]. exists pre, (post ++ [z]). split.
    + now rewrite <- app_assoc.
    + intros y Hy. apply in_app_iff in Hy. destruct Hy as [Hy | [<- | []]]; auto.
Qed.

Lemma lastWith_None (p : A -> bool) (l : list A) :
  lastWith p l = None <-> forall x, In x l -> p x = false.
Proof.
  induction l as [|z l IH] using rev_ind.
  - split; [intros _ x []|reflexivity].
  - rewrite lastWith_snoc. destruct (p z) eqn:Ez.
    + split; [discriminate|]. intros H.
      rewrite (H z) in Ez by (apply in_app_iff; right; now left). discriminate.
    + rewrite IH. split.
      * intros H x Hx. apply in_app_iff in Hx.
        destruct Hx as [Hx | [<- | []]]; auto.
      * intros H x Hx. apply H, in_app_iff. now left.
Qed.

Lemma lastWith_map (f : A -> A) (p : A -> bool) (l : list A) :
  (forall x, p (f x) = p x) ->
  lastWith p (List.map f l) = f <$> lastWith p l.
Proof.
  intros Hf. induction l as [|z l IH] using rev_ind; [reflexivity|].
  rewrite map_app. simpl. rewrite !lastWith_snoc, Hf, IH.
  destruct (p z); reflexivity.
Qed.

(** Building a [Map] with [forEach ... map.set(x.id, x)] and reading it:
    the last element with the id. *)
Lemma byId_lookup (l : list A) (i : string) :
  foldl (fun m x => <[key x := x]> m) (∅ : gmap string A) l !! i
  = lastWith (fun x => String.eqb (key x) i) l.
Proof.
  induction l as [|z l IH] using rev_ind; [apply lookup_empty|].
  rewrite foldl_snoc, lastWith_snoc.
  destruct (String.eqb (key z) i) eqn:E.
  - apply String.eqb_eq in E. subst i. apply lookup_insert_eq.
  - apply String.eqb_neq in E. rewrite lookup_insert_ne by exact E. exact IH.
Qed.
End ById.

Lemma bandById_Some (bs : list Band.t) (i : string) (b : Band.t) :
  bandById bs !! i = Some b ->
  Band.id b = i
  /\ exists (pre post : list Band.t),
       bs = pre ++ b :: post /\ forall b', In b' post -> Band.id b' <> i.
Proof.
  unfold bandById. rewrite byId_lookup. intros Hb. apply lastWith_Some in Hb.
  destruct Hb as (Hid & pre & post & -> & Hpost).
  split; [now apply String.eqb_eq|]. exists pre, post. split; [reflexivity|].
  intros b' Hb'. apply String.eqb_neq. now apply Hpost.
Qed.

(** X7: the band lookup holds, for each id, the last band of the list with that
    id: an id no band has is not found, and of two bands with one id the
    later one is the one found. *)
Theorem bandById_finds_the_last_band (bs : list Band.t) (i : string) :
  bandById bs !! i = lastWith (fun b => String.eqb (Band.id b) i) bs
  /\ (bandById bs !! i = None <-> forall b, In b bs -> Band.id b <> i)
  /\ (forall b, bandById bs !! i = Some b ->
        Band.id b = i
        /\ exists (pre post : list Band.t),
             bs = pre ++ b :: post
             /\ forall b', In b' post -> Band.id b' <> i).
Proof.
  unfold bandById. rewrite byId_lookup. split; [reflexivity|]. split.
  - rewrite lastWith_None. split; intros H b Hb.
    + apply String.eqb_neq. now apply H.
    + apply String.eqb_neq. now apply H.
  - intros b Hb. apply bandById_Some. unfold bandById. now rewrite byId_lookup.
Qed.

(** ** Price edits *)

Lemma bandById_map (f : Band.t -> Band.t) (bs : list Band.t) (i : string) :
  (forall b, Band.id (f b) = Band.id b) ->
  bandById (List.map f bs) !! i = f <$> bandById bs !! i.
Proof.
  intros Hf. unfold bandById. rewrite !byId_lookup. apply lastWith_map.
  intros b. now rewrite Hf.
Qed.

Lemma productById_map (f : Product.t -> Product.t) (ps : list Product.t)
    (i : string) :
  (forall p, Product.id (f p) = Product.id p) ->
  productById (List.map f ps) !! i = f <$> productById ps !! i.
Proof.
  intros Hf. unfold productById. rewrite !byId_lookup. apply lastWith_map.
  intros p. now rewrite Hf.
Qed.

(** X8: an edit of a band price shows in every product priced by that band, for
    that unit only; products with prices of their own, products on another
    band and products whose band is missing resolve as before. *)
Theorem updateBandPrice_reaches_the_band_s_products (bandId unit : string)
    (newPence : Z) (t : Till) (p : Product.t) :
  let before := bandById (bands (state t)) in
  let after := bandById (bands (state (updateBandPrice bandId unit newPence t))) in
  (Product.pricesPence p = None \/ Product.units p = None ->
   Product.bandId p = Some bandId ->
   forall band, before !! bandId = Some band ->
     resolveUnitsAndPrices after p
     = Resolved.mk (Band.units band) (<[unit := newPence]> (Band.pricesPence band))
     /\ resolvedPrice (state (updateBandPrice bandId unit newPence t)) p unit
        = newPence
     /\ forall u, u <> unit ->
          resolvedPrice (state (updateBandPrice bandId unit newPence t)) p u
          = resolvedPrice (state t) p u)
  /\ ((is_Some (Product.pricesPence p) /\ is_Some (Product.units p))
      \/ Product.bandId p <> Some bandId
      \/ before !! bandId = None ->
      resolveUnitsAndPrices after p = resolveUnitsAndPrices before p).
Proof.
  intros before after.
  set (f := fun b => if String.eqb (Band.id b) bandId
                     then Band.mk (Band.id b) (Band.name b) (Band.units b)
                            (<[unit := newPence]> (Band.pricesPence b))
                     else b).
  assert (forall b, Band.id (f b) = Band.id b) as Hf.
  { intros b. unfold f. destruct (String.eqb (Band.id b) bandId); reflexivity. }
  assert (forall i, after !! i = f <$> before !! i) as Hafter.
  { intros i. apply (bandById_map f _ i Hf). }
  split.
  - intros Hown Hband band Hfound.
    assert (Band.id band = bandId) as Hid.
    { now destruct (bandById_Some (bands (state t)) bandId band Hfound). }
    assert (resolveUnitsAndPrices after p
            = Resolved.mk (Band.units band)
                (<[unit := newPence]> (Band.pricesPence band))) as Hafter_p.
    { unfold resolveUnitsAndPrices. rewrite Hband. cbn [mbind option_bind].
      rewrite Hafter, Hfound. cbn [fmap option_fmap option_map].
      unfold f. rewrite Hid, String.eqb_refl.
      destruct Hown as [-> | ->]; [reflexivity|].
      destruct (Product.pricesPence p); reflexivity. }
    assert (resolveUnitsAndPrices before p
            = Resolved.mk (Band.units band) (Band.pricesPence band)) as Hbefore_p.
    { unfold resolveUnitsAndPrices. rewrite Hband. cbn [mbind option_bind].
      rewrite Hfound.
      destruct Hown as [-> | ->]; [reflexivity|].
      destruct (Product.pricesPence p); reflexivity. }
    split; [exact Hafter_p|]. unfold resolvedPrice.
    fold after. fold before. rewrite Hafter_p, Hbefore_p. cbn [Resolved.pricesPence].
    split; [now rewrite lookup_insert_eq|].
    intros u Hu. now rewrite lookup_insert_ne by congruence.
  - intros H. unfold resolveUnitsAndPrices.
    destruct H as [[[pm ->] [us ->]] | [H | H]]; [reflexivity| |].
    + destruct (Product.bandId p) as [bid|]; cbn [mbind option_bind];
        [|reflexivity].
      rewrite Hafter.
      destruct (before !! bid) as [band|] eqn:Hfound; [|reflexivity].
      cbn [fmap option_fmap option_map]. unfold f.
      assert (Band.id band = bid) as Hid.
      { now destruct (bandById_Some (bands (state t)) bid band Hfound). }
      rewrite Hid. destruct (String.eqb bid bandId) eqn:E; [|reflexivity].
      apply String.eqb_eq in E. congruence.
    + destruct (Product.bandId p) as [bid|]; cbn [mbind option_bind];
        [|reflexivity].
      rewrite Hafter.
      destruct (before !! bid) as [band|] eqn:Hfound; [|reflexivity].
      cbn [fmap option_fmap option_map]. unfold f.
      assert (Band.id band = bid) as Hid.
      { now destruct (bandById_Some (bands (state t)) bid band Hfound). }
      rewrite Hid. destruct (String.eqb bid bandId) eqn:E; [|reflexivity].
      apply String.eqb_eq in E. subst bid. congruence.
Qed.

Lemma updateBandPrice_reaches_the_band_s_products_witness :
  resolvedPrice (state (updateBandPrice "band-premium" "Single" 500 openingTill))
    tanqueray "Single" = 500.
Proof.
  refine (proj1 (proj2 (proj1 (updateBandPrice_reaches_the_band_s_products
                                 "band-premium" "Single" 500 openingTill tanqueray)
                          _ _ premium _))).
  - left. reflexivity.
  - reflexivity.
  - vm_compute. reflexivity.
Defined.

(** X9: an edit of a product's own price: the bands are untouched and so is
    every product with another id; a product with that id and units of its
    own then sells that unit at the new price, and its other units as before
    when it had prices of its own; a product with that id but no units of
    its own keeps resolving through its band, so the edit does not show. *)
Theorem updateOverridePrice_changes_one_price (productId unit : string)
    (newPence : Z) (t : Till) (p : Product.t) :
  In p (products (state t)) ->
  let t' := updateOverridePrice productId unit newPence t in
  let p' := if negb (String.eqb (Product.id p) productId) then p
            else withOverridePrice unit newPence p in
  In p' (products (state t'))
  /\ bands (state t') = bands (state t)
  /\ (Product.id p <> productId -> p' = p)
  /\ (Product.id p = productId -> is_Some (Product.units p) ->
      resolvedPrice (state t') p' unit = newPence
      /\ (is_Some (Product.pricesPence p) ->
          forall u, u <> unit ->
            resolvedPrice (state t') p' u = resolvedPrice (state t) p u))
  /\ (Product.id p = productId -> Product.units p = None ->
      forall u, resolvedPrice (state t') p' u = resolvedPrice (state t) p u).
Proof.
  intros Hin t' p'. split; [|split; [reflexivity|]].
  { unfold t', updateOverridePrice. cbn [state setState products].
    apply in_map_iff. exists p. split; [reflexivity|exact Hin]. }
  split.
  { intros Hid. unfold p'. apply String.eqb_neq in Hid. now rewrite Hid. }
  split.
  - intros Hid [us Hus]. unfold p'.
    rewrite (proj2 (String.eqb_eq _ _) Hid). cbn [negb].
    split.
    + now apply resolvedPrice_after_override_edit with us.
    + intros [pm Hpm] u Hu. unfold resolvedPrice, resolveUnitsAndPrices.
      cbn [withOverridePrice Product.pricesPence Product.units].
      rewrite Hus, Hpm. cbn [default from_option Resolved.pricesPence].
      now rewrite lookup_insert_ne by congruence.
  - intros Hid Hus u. unfold p'.
    rewrite (proj2 (String.eqb_eq _ _) Hid). cbn [negb].
    unfold resolvedPrice, resolveUnitsAndPrices.
    cbn [withOverridePrice Product.pricesPence Product.units Product.bandId].
    rewrite Hus. destruct (Product.pricesPence p); reflexivity.
Qed.

Lemma updateOverridePrice_changes_one_price_witness :
  In (withOverridePrice "One" 300 bombs)
     (products (state (updateOverridePrice "p-bombs" "One" 300 openingTill)))
  /\ resolvedPrice (state (updateOverridePrice "p-bombs" "One" 300 openingTill))
       (withOverridePrice "One" 300 bombs) "One" = 300.
Proof.
  pose proof (updateOverridePrice_changes_one_price "p-bombs" "One" 300
                openingTill bombs) as H.
  destruct H as (H1 & _ & _ & H2 & _).
  - right. left. reflexivity.
  - split; [exact H1|]. apply H2; [reflexivity|]. eexists. reflexivity.
Defined.

(** ** The sale's total *)

Lemma foldM_ext {A B} (f g : B -> A -> Completion B) (l : list A) :
  (forall acc x, f acc x = g acc x) ->
  forall acc, foldM f acc l = foldM g acc l.
Proof.
  intros H. induction l as [|x l IH]; intros acc; simpl; [reflexivity|].
  rewrite H. destruct (g acc x); [apply IH|reflexivity].
Qed.

Section SaleTotal.
Context `{rt : JsRuntime}.

Lemma lineTotal_after_override_edit productId unit newPence t line :
  lineTotal (updateOverridePrice productId unit newPence t) line
  = lineTotal t line.
Proof.
  unfold lineTotal, updateOverridePrice. cbn [state setState products].
  rewrite productById_map.
  - destruct (productById (products (state t)) !! Line.productId line) as [p|];
      [|reflexivity].
    cbn [fmap option_fmap option_map from_option].
    destruct (negb (String.eqb (Product.id p) productId)); reflexivity.
  - intros p. destruct (negb (String.eqb (Product.id p) productId)); reflexivity.
Qed.

(** X10: neither price edit touches the basket, the total of any line or the
    total of the sale: a line keeps the price it was added at. *)
Theorem price_edits_leave_the_sale_alone (id unit : string) (newPence : Z)
    (t : Till) :
  basket (updateBandPrice id unit newPence t) = basket t
  /\ basket (updateOverridePrice id unit newPence t) = basket t
  /\ (forall line,
        lineTotal (updateBandPrice id unit newPence t) line = lineTotal t line
        /\ lineTotal (updateOverridePrice id unit newPence t) line
           = lineTotal t line)
  /\ Sale.totalPence (updateBandPrice id unit newPence t) = Sale.totalPence t
  /\ Sale.totalPence (updateOverridePrice id unit newPence t)
     = Sale.totalPence t.
Proof.
  split; [reflexivity|]. split; [reflexivity|]. split; [|split].
  - intros line. split; [reflexivity|apply lineTotal_after_override_edit].
  - reflexivity.
  - unfold Sale.totalPence. cbn [basket updateOverridePrice setState].
    apply foldM_ext. intros acc line.
    now rewrite lineTotal_after_override_edit.
Qed.
End SaleTotal.

Lemma productById_In (ps : list Product.t) (i : string) (p : Product.t) :
  productById ps !! i = Some p -> In p ps /\ Product.id p = i.
Proof.
  unfold productById. rewrite byId_lookup. intros H.
  apply lastWith_Some in H. destruct H as (Hid & pre & post & -> & _).
  split; [apply in_app_iff; right; now left|now apply String.eqb_eq].
Qed.

Section SaleBounds.
Context `{rt : JsRuntime}.

Lemma lineTotal_bounds (t : Till) (line : Line.t) :
  DealsAreLists (state t) ->
  0 <= Line.pricePence line -> 0 <= Line.qty line ->
  exists r x,
    lineTotal t line = Normal r /\ totalPence r = Finite x
    /\ 0 <= x <= Line.pricePence line * Line.qty line.
Proof.
  intros Hdeals Hp Hq. unfold lineTotal.
  assert (forall deals,
            deals = JUndefined \/ deals = JNull \/ (exists l, deals = JArr l) ->
            exists r x,
              App.bestLineTotalWithDeals (Finite (Line.pricePence line))
                (Finite (Line.qty line)) deals = Normal r
              /\ totalPence r = Finite x
              /\ 0 <= x <= Line.pricePence line * Line.qty line) as Hengine.
  { intros deals [-> | [-> | [l ->]]].
    - eexists. eexists. split; [reflexivity|]. split; [reflexivity|]. nia.
    - eexists. eexists. split; [reflexivity|]. split; [reflexivity|]. nia.
    - destruct (total_finite_nonnegative _ _ l Hp Hq) as (r & x & Hr & Hx & Hpos).
      exists r, x. split; [exact Hr|]. split; [exact Hx|]. split; [exact Hpos|].
      destruct (total_is_baseline_or_below (Finite (Line.pricePence line))
                  (Finite (Line.qty line)) l) as (r' & Hr' & Hle).
      rewrite Hr in Hr'. injection Hr' as <-.
      destruct Hle as [-> | Hlt].
      + simpl in Hx. injection Hx as <-. lia.
      + rewrite Hx in Hlt. simpl in Hlt. apply Z.ltb_lt in Hlt. lia. }
  destruct (productById (products (state t)) !! Line.productId line) as [p|] eqn:E.
  - apply Hengine. cbn [from_option]. apply Hdeals.
    now destruct (productById_In _ _ _ E).
  - apply Hengine. now left.
Qed.

(** X11: when every product's deals are absent or a list, prices are not
    negative and quantities are not negative, the total of the sale is
    computed, and lies between 0 and the total without any deal. *)
Theorem sale_total_is_bounded (t : Till) :
  DealsAreLists (state t) ->
  Forall (fun l => 0 <= Line.pricePence l /\ 0 <= Line.qty l) (basket t) ->
  exists T, Sale.totalPence t = Normal (Finite T)
            /\ 0 <= T <= undiscounted (basket t).
Proof.
  intros Hdeals Hlines. unfold Sale.totalPence.
  assert (forall b a,
            Forall (fun l => 0 <= Line.pricePence l /\ 0 <= Line.qty l) b ->
            exists T,
              foldM (fun sum line =>
                       r ← lineTotal t line;
                       Normal (num_add sum (totalPence (r : LineTotal))))
                    (Finite a) b = Normal (Finite (a + T))
              /\ 0 <= T <= undiscounted b) as Hfold.
  { induction b as [|line b IH]; intros a Hb; simpl.
    - exists 0. split; [now rewrite Z.add_0_r|lia].
    - apply Forall_cons in Hb. destruct Hb as [[Hp Hq] Hb].
      destruct (lineTotal_bounds t line Hdeals Hp Hq) as (r & x & -> & Hx & Hbound).
      cbn [mbind Completion_bind]. rewrite Hx. cbn [num_add].
      destruct (IH (a + x) Hb) as (T & -> & HT).
      exists (x + T). split; [f_equal; f_equal; lia|lia]. }
  destruct (Hfold (basket t) 0 Hlines) as (T & HT & Hbound).
  exists T. split; [exact HT|exact Hbound].
Qed.

(** X12: a line whose product has left the catalog, or has no deals, counts for
    its price times its quantity: with no deals anywhere the total of the
    sale is the total without any deal. *)
Theorem sale_total_without_deals (t : Till) :
  (forall line p, In line (basket t) -> In p (products (state t)) ->
     Product.id p = Line.productId line ->
     Product.deals p = JUndefined \/ Product.deals p = JNull
     \/ Product.deals p = JArr []) ->
  (forall line, In line (basket t) ->
     lineTotal t line
     = Normal {| totalPence := Finite (Line.pricePence line * Line.qty line);
                 dealNote := None |})
  /\ Sale.totalPence t = Normal (Finite (undiscounted (basket t))).
Proof.
  intros Hnone.
  assert (forall line, In line (basket t) ->
            lineTotal t line
            = Normal {| totalPence := Finite (Line.pricePence line * Line.qty line);
                        dealNote := None |}) as Hline.
  { intros line Hline. unfold lineTotal.
    destruct (productById (products (state t)) !! Line.productId line)
      as [p|] eqn:E; [|reflexivity].
    destruct (productById_In _ _ _ E) as [Hp Hid]. cbn [from_option].
    destruct (Hnone line p Hline Hp Hid) as [-> | [-> | ->]]; reflexivity. }
  split; [exact Hline|]. unfold Sale.totalPence.
  assert (forall b a, (forall line, In line b -> In line (basket t)) ->
            foldM (fun sum line =>
                     r ← lineTotal t line;
                     Normal (num_add sum (totalPence (r : LineTotal))))
                  (Finite a) b = Normal (Finite (a + undiscounted b))) as Hfold.
  { induction b as [|line b IH]; intros a Hb; simpl.
    - now rewrite Z.add_0_r.
    - rewrite Hline by (apply Hb; now left). cbn [mbind Completion_bind].
      cbn [totalPence num_add]. rewrite IH by (intros l Hl; apply Hb; now right).
      f_equal. f_equal. lia. }
  apply (Hfold (basket t) 0). auto.
Qed.

(** X13: one line whose total cannot be computed makes the total of the sale
    throw. *)
Theorem sale_total_raises_with_any_line (t : Till) (line : Line.t) :
  In line (basket t) ->
  lineTotal t line = Throw_TypeError ->
  Sale.totalPence t = Throw_TypeError.
Proof.
  intros Hin Hthrow. unfold Sale.totalPence.
  generalize (Finite 0). induction (basket t) as [|l b IH]; [destruct Hin|].
  intros acc. simpl. destruct Hin as [-> | Hin].
  - now rewrite Hthrow.
  - destruct (lineTotal t l); [|reflexivity].
    cbn [mbind Completion_bind]. now apply IH.
Qed.
End SaleBounds.

Lemma sale_total_is_bounded_witness :
  exists T,
    @Sale.totalPence browser
      (addToBasket "k1" bombs "One" openingTill) = Normal (Finite T)
    /\ 0 <= T <= undiscounted (basket (addToBasket "k1" bombs "One" openingTill)).
Proof.
  apply (@sale_total_is_bounded browser (addToBasket "k1" bombs "One" openingTill)).
  - intros p [<- | [<- | []]]; [left; reflexivity|].
    right. right. eexists. reflexivity.
  - repeat constructor; vm_compute; discriminate.
Defined.

Lemma sale_total_without_deals_witness :
  @Sale.totalPence browser (addToBasket "k1" tanqueray "Single" openingTill)
  = Normal (Finite 450).
Proof.
  refine (proj2 (@sale_total_without_deals browser
                   (addToBasket "k1" tanqueray "Single" openingTill) _)).
  intros line p [<- | []] [<- | [<- | []]] Hid; [left; reflexivity|].
  vm_compute in Hid. discriminate.
Defined.

Lemma sale_total_raises_with_any_line_witness :
  let t := mkTill (mkConfig [premium] [tanqueray; bombs_unwrapped] false "1234")
             [Line.mk "k1" "p-bombs" "Bombs" "One" 290 3] None in
  @Sale.totalPence browser t = Throw_TypeError.
Proof.
  intros t.
  apply (@sale_total_raises_with_any_line browser t
           (Line.mk "k1" "p-bombs" "Bombs" "One" 290 3)).
  - left. reflexivity.
  - reflexivity.
Defined.

(** ** Undo, and the keys of the lines *)

Lemma with_qty_back (l : Line.t) (q : Z) :
  Line.with_qty (Line.with_qty l q) (Line.qty l) = l.
Proof. destruct l. reflexivity. Qed.

Lemma KeysDistinct_app_inv (pre : list Line.t) (x : Line.t) (post : list Line.t) :
  KeysDistinct (pre ++ x :: post) ->
  Line.key x <> ""
  /\ (forall l, In l pre -> Line.key l <> Line.key x)
  /\ (forall l, In l post -> Line.key l <> Line.key x).
Proof.
  unfold KeysDistinct. rewrite map_app. simpl. intros [Hnd Hne].
  apply NoDup_app in Hnd. destruct Hnd as (_ & Hcross & Hnd).
  apply NoDup_cons in Hnd. destruct Hnd as [Hx _].
  split; [|split].
  - intros E. apply Hne, in_app_iff. right. left. exact E.
  - intros l Hl E. apply (Hcross (Line.key l)).
    + apply list_elem_of_In, in_map, Hl.
    + rewrite E. apply list_elem_of_In. now left.
  - intros l Hl E. apply Hx. rewrite <- E. apply list_elem_of_In, in_map, Hl.
Qed.

(** X14: undo straight after an add gives back the basket as it was, when the
    lines have distinct non-empty keys and positive quantities and the new
    key is non-empty and not in use. *)
Theorem undo_after_add_restores_the_basket (uid : string) (product : Product.t)
    (unit : string) (t : Till) :
  KeysDistinct (basket t) -> QtyPositive (basket t) ->
  uid <> "" -> ~ In uid (List.map Line.key (basket t)) ->
  basket (undoLastAdd (addToBasket uid product unit t)) = basket t.
Proof.
  intros Hkeys Hpos Huid Hfresh.
  destruct (Z.le_gt_cases 0
              (findIndex (sameLine (Product.id product) unit
                            (resolvedPrice (state t) product unit)) (basket t)))
    as [Hi | Hi].
  - destruct (findIndex_first _ _ Hi) as (pre & x & post & Hb & Hx & Hpre & _).
    apply sameLine_true in Hx.
    destruct (addToBasket_existing uid product unit t pre x post Hb Hx)
      as [Hbasket Hlast].
    { intros y Hy. apply sameLine_false, Hpre, Hy. }
    rewrite Hb in Hkeys, Hpos.
    destruct (KeysDistinct_app_inv pre x post Hkeys) as (Hne & Hkpre & Hkpost).
    apply Forall_app in Hpos. destruct Hpos as [Hppre Hpos].
    apply Forall_cons in Hpos. destruct Hpos as [Hqx Hppost].
    unfold undoLastAdd. rewrite Hlast.
    rewrite (proj2 (String.eqb_neq _ _) Hne).
    unfold decQty. cbn [basket setBasket]. rewrite Hbasket, Hb.
    rewrite map_app, List.filter_app. cbn [List.map List.filter].
    rewrite (decQty_other_keys _ pre Hkpre Hppre).
    rewrite (decQty_other_keys _ post Hkpost Hppost).
    cbn [Line.with_qty Line.key]. rewrite String.eqb_refl.
    cbn [Line.with_qty Line.qty].
    replace (Line.qty x + 1 - 1) with (Line.qty x) by lia.
    destruct (0 <? Line.qty x) eqn:E; [|apply Z.ltb_ge in E; simpl in Hqx; lia].
    destruct x. reflexivity.
  - assert (forall y, In y (basket t) ->
              lineKey y <> keyOf (state t) product unit) as Hnone.
    { intros y Hy. apply sameLine_false.
      apply findIndex_none with (l := basket t); (lia || exact Hy). }
    unfold undoLastAdd, addToBasket.
    rewrite findIndex_absent by (intros y Hy; apply sameLine_false, Hnone, Hy).
    cbn [Z.leb Z.compare lastAddKey setLastAddKey Line.key].
    rewrite (proj2 (String.eqb_neq _ _) Huid).
    unfold decQty. cbn [basket setBasket setLastAddKey].
    rewrite map_app, List.filter_app. cbn [List.map List.filter Line.key].
    rewrite String.eqb_refl. cbn [Line.with_qty Line.qty Z.ltb Z.compare Z.sub Z.add Z.opp Z.pos_sub].
    rewrite decQty_other_keys; [apply app_nil_r| |exact Hpos].
    intros l Hl E. apply Hfresh. rewrite <- E. now apply in_map.
Qed.

Lemma undo_after_add_restores_the_basket_witness :
  basket (undoLastAdd
            (addToBasket "k2" bombs "One" (addToBasket "k1" bombs "One" openingTill)))
  = basket (addToBasket "k1" bombs "One" openingTill).
Proof.
  apply (undo_after_add_restores_the_basket "k2" bombs "One"
           (addToBasket "k1" bombs "One" openingTill)).
  - split; [repeat constructor; intros H; inversion H|].
    intros [H | []]. discriminate.
  - repeat constructor. simpl. lia.
  - discriminate.
  - intros [H | []]. discriminate.
Defined.

(** X15: when [uid()] returns the empty string for a new line (it does when
    [Math.random()] returns 0), the key is falsy and Undo does nothing. *)
Theorem undo_does_nothing_for_an_empty_key (product : Product.t) (unit : string)
    (t : Till) :
  (forall y, In y (basket t) -> lineKey y <> keyOf (state t) product unit) ->
  lastAddKey (addToBasket "" product unit t) = Some ""
  /\ undoLastAdd (addToBasket "" product unit t) = addToBasket "" product unit t.
Proof.
  intros Hnone.
  assert (lastAddKey (addToBasket "" product unit t) = Some "") as Hlast.
  { unfold addToBasket.
    rewrite findIndex_absent by (intros y Hy; apply sameLine_false, Hnone, Hy).
    reflexivity. }
  split; [exact Hlast|]. unfold undoLastAdd. now rewrite Hlast.
Qed.

Lemma undo_does_nothing_for_an_empty_key_witness :
  undoLastAdd (addToBasket "" bombs "One" openingTill)
  = addToBasket "" bombs "One" openingTill.
Proof.
  refine (proj2 (undo_does_nothing_for_an_empty_key bombs "One" openingTill _)).
  intros y [].
Defined.

(** X16: plus then minus on a key gives back the basket, when every quantity is
    positive. *)
Theorem dec_after_inc_restores_the_basket (key : string) (t : Till) :
  QtyPositive (basket t) ->
  basket (decQty key (incQty key t)) = basket t.
Proof.
  unfold QtyPositive, decQty, incQty. cbn [basket setBasket].
  induction (basket t) as [|x b IH]; intros Hpos; simpl; [reflexivity|].
  apply Forall_cons in Hpos. destruct Hpos as [Hx Hpos].
  destruct (String.eqb (Line.key x) key) eqn:E.
  - cbn [Line.with_qty Line.key]. rewrite E. cbn [Line.with_qty Line.qty].
    replace (Line.qty x + 1 - 1) with (Line.qty x) by lia.
    destruct (0 <? Line.qty x) eqn:Eq; [|apply Z.ltb_ge in Eq; lia].
    rewrite IH by exact Hpos. destruct x. reflexivity.
  - rewrite E. destruct (0 <? Line.qty x) eqn:Eq; [|apply Z.ltb_ge in Eq; lia].
    now rewrite IH.
Qed.

Lemma dec_after_inc_restores_the_basket_witness :
  basket (decQty "k1" (incQty "k1" (addToBasket "k1" bombs "One" openingTill)))
  = basket (addToBasket "k1" bombs "One" openingTill).
Proof.
  apply (dec_after_inc_restores_the_basket "k1"
           (addToBasket "k1" bombs "One" openingTill)).
  repeat constructor. simpl. lia.
Defined.

Lemma In_map_filter {A B} (f : A -> B) (p : A -> bool) (l : list A) (y : B) :
  In y (List.map f (List.filter p l)) -> In y (List.map f l).
Proof.
  intros H. apply in_map_iff in H. destruct H as (x & <- & Hx).
  apply filter_In in Hx. apply in_map. tauto.
Qed.

Lemma keys_after_map_qty (g : Line.t -> Z) (p : Line.t -> bool) (b : list Line.t) :
  List.map Line.key
    (List.map (fun l => if p l then Line.with_qty l (g l) else l) b)
  = List.map Line.key b.
Proof.
  rewrite List.map_map. apply List.map_ext. intros l. destruct (p l); reflexivity.
Qed.

(** X17: the keys stay distinct and non-empty under every operation, provided
    each new key is non-empty and not in use. *)
Theorem keys_stay_distinct (uid : string) (product : Product.t)
    (unit key : string) (t : Till) :
  KeysDistinct (basket t) ->
  (uid <> "" -> ~ In uid (List.map Line.key (basket t)) ->
   KeysDistinct (basket (addToBasket uid product unit t)))
  /\ KeysDistinct (basket (incQty key t))
  /\ KeysDistinct (basket (decQty key t))
  /\ KeysDistinct (basket (removeLine key t)).
Proof.
  intros [Hnd Hne]. split; [|split; [|split]].
  - intros Huid Hfresh.
    destruct (Z.le_gt_cases 0
                (findIndex (sameLine (Product.id product) unit
                              (resolvedPrice (state t) product unit)) (basket t)))
      as [Hi | Hi].
    + destruct (findIndex_first _ _ Hi) as (pre & x & post & Hb & Hx & Hpre & _).
      apply sameLine_true in Hx.
      destruct (addToBasket_existing uid product unit t pre x post Hb Hx)
        as [Hbasket _].
      { intros y Hy. apply sameLine_false, Hpre, Hy. }
      unfold KeysDistinct. rewrite Hbasket. rewrite Hb in Hnd, Hne.
      rewrite map_app in *. exact (conj Hnd Hne).
    + assert (forall y, In y (basket t) ->
                lineKey y <> keyOf (state t) product unit) as Hnone.
      { intros y Hy. apply sameLine_false.
        apply findIndex_none with (l := basket t); (lia || exact Hy). }
      destruct (addToBasket_fresh uid product unit t Hnone)
        as (line & Hbasket & _ & _ & Hkey).
      unfold KeysDistinct. rewrite Hbasket, map_app. simpl. rewrite Hkey. split.
      * apply NoDup_app. split; [exact Hnd|]. split; [|apply NoDup_singleton].
        intros k Hk Hk'. apply list_elem_of_In in Hk, Hk'.
        destruct Hk' as [<- | []]. contradiction.
      * intros H. apply in_app_iff in H. destruct H as [H | [H | []]]; auto.
  - unfold KeysDistinct, incQty. cbn [basket setBasket].
    rewrite (keys_after_map_qty (fun l => Line.qty l + 1)
               (fun l => String.eqb (Line.key l) key)). auto.
  - unfold KeysDistinct, decQty. cbn [basket setBasket]. split.
    + apply NoDup_map_filter.
      rewrite (keys_after_map_qty (fun l => Line.qty l - 1)
                 (fun l => String.eqb (Line.key l) key)). exact Hnd.
    + intros H. apply In_map_filter in H.
      rewrite (keys_after_map_qty (fun l => Line.qty l - 1)
                 (fun l => String.eqb (Line.key l) key)) in H. auto.
  - unfold KeysDistinct, removeLine. cbn [basket setBasket]. split.
    + now apply NoDup_map_filter.
    + intros H. apply In_map_filter in H. auto.
Qed.

Lemma keys_stay_distinct_witness :
  KeysDistinct (basket (incQty "k1" (addToBasket "k1" bombs "One" openingTill))).
Proof.
  refine (proj1 (proj2 (keys_stay_distinct "k2" bombs "One" "k1"
                          (addToBasket "k1" bombs "One" openingTill) _))).
  split; [repeat constructor; intros H; inversion H|].
  intros [H | []]. discriminate.
Defined.

(** X18: with distinct keys each button acts on its own line only: plus adds one
    to it, minus takes one off or drops it at quantity 1, and the cross
    removes it; the other lines stay as they are, in their order. *)
Theorem buttons_act_on_their_line (t : Till) (pre : list Line.t) (l : Line.t)
    (post : list Line.t) :
  KeysDistinct (basket t) -> QtyPositive (basket t) ->
  basket t = pre ++ l :: post ->
  basket (incQty (Line.key l) t)
  = pre ++ Line.with_qty l (Line.qty l + 1) :: post
  /\ basket (decQty (Line.key l) t)
     = pre ++ (if Line.qty l =? 1 then []
               else [Line.with_qty l (Line.qty l - 1)]) ++ post
  /\ basket (removeLine (Line.key l) t) = pre ++ post.
Proof.
  intros Hkeys Hpos Hb. rewrite Hb in Hkeys, Hpos.
  destruct (KeysDistinct_app_inv pre l post Hkeys) as (_ & Hkpre & Hkpost).
  apply Forall_app in Hpos. destruct Hpos as [Hppre Hpos].
  apply Forall_cons in Hpos. destruct Hpos as [Hql Hppost].
  assert (forall b : list Line.t,
            (forall y, In y b -> Line.key y <> Line.key l) ->
            List.map (fun y => if String.eqb (Line.key y) (Line.key l)
                               then Line.with_qty y (Line.qty y + 1) else y) b = b)
    as Hinc.
  { induction b as [|y b IH]; intros Hk; simpl; [reflexivity|].
    rewrite (proj2 (String.eqb_neq _ _) (Hk y (or_introl eq_refl))).
    f_equal. apply IH. intros z Hz. apply Hk. now right. }
  assert (forall b : list Line.t,
            (forall y, In y b -> Line.key y <> Line.key l) ->
            List.filter (fun y => negb (String.eqb (Line.key y) (Line.key l))) b = b)
    as Hrem.
  { induction b as [|y b IH]; intros Hk; simpl; [reflexivity|].
    rewrite (proj2 (String.eqb_neq _ _) (Hk y (or_introl eq_refl))).
    simpl. f_equal. apply IH. intros z Hz. apply Hk. now right. }
  split; [|split].
  - unfold incQty. cbn [basket setBasket]. rewrite Hb, map_app. simpl.
    rewrite String.eqb_refl, (Hinc pre Hkpre), (Hinc post Hkpost). reflexivity.
  - unfold decQty. cbn [basket setBasket].
    rewrite Hb, map_app, List.filter_app. cbn [List.map List.filter].
    rewrite (decQty_other_keys _ pre Hkpre Hppre).
    rewrite (decQty_other_keys _ post Hkpost Hppost).
    rewrite String.eqb_refl. cbn [Line.with_qty Line.qty]. simpl in Hql.
    destruct (Line.qty l =? 1) eqn:E.
    + apply Z.eqb_eq in E. rewrite E. reflexivity.
    + apply Z.eqb_neq in E.
      destruct (0 <? Line.qty l - 1) eqn:E'; [reflexivity|].
      apply Z.ltb_ge in E'. lia.
  - unfold removeLine. cbn [basket setBasket].
    rewrite Hb, List.filter_app. simpl.
    rewrite String.eqb_refl, (Hrem pre Hkpre), (Hrem post Hkpost). reflexivity.
Qed.

Lemma buttons_act_on_their_line_witness :
  basket (removeLine "k1" (addToBasket "k1" bombs "One" openingTill)) = [].
Proof.
  refine (proj2 (proj2 (buttons_act_on_their_line
                          (addToBasket "k1" bombs "One" openingTill)
                          [] (Line.mk "k1" "p-bombs" "Bombs" "One" 290 1) [] _ _ _))).
  - split; [repeat constructor; intros H; inversion H|].
    intros [H | []]. discriminate.
  - repeat constructor. simpl. lia.
  - reflexivity.
Defined.

(** ** The PIN of the admin screen *)

(** X19: with the PIN required and not empty, no sequence of opening, closing,
    typing and pressing Unlock that never types the PIN itself unlocks the
    admin screen; typing the PIN and pressing Unlock does. *)
Theorem pin_gate_holds (c : Config) (a : Admin) (events : list AdminEvent) :
  pinEnabled c = true -> pin c <> "" ->
  authed a = false -> pinEntry a <> pin c ->
  (forall e, In e events -> e <> TypePin (pin c)) ->
  authed (foldl (adminStep c) a events) = false
  /\ authed (adminStep c (adminStep c (foldl (adminStep c) a events)
                            (TypePin (pin c))) ClickUnlock) = true.
Proof.
  intros Hon Hpin Hauthed Hentry Hevents. split.
  - revert a Hauthed Hentry.
    induction events as [|e events IH]; intros a Hauthed Hentry; simpl;
      [exact Hauthed|].
    assert (authed (adminStep c a e) = false
            /\ pinEntry (adminStep c a e) <> pin c) as [H1 H2].
    { destruct e as [| |s|]; simpl.
      - rewrite Hon. split; [reflexivity|]. intros E. now apply Hpin.
      - split; [reflexivity|]. intros E. now apply Hpin.
      - split; [exact Hauthed|]. intros ->.
        apply (Hevents (TypePin (pin c))); [now left|reflexivity].
      - unfold tryPin. rewrite (proj2 (String.eqb_neq _ _) Hentry).
        simpl. auto. }
    apply IH; auto. intros e' He'. apply Hevents. now right.
  - simpl. unfold tryPin. simpl. now rewrite String.eqb_refl.
Qed.

Lemma pin_gate_holds_witness :
  let c := mkConfig [] [] true "1234" in
  authed (foldl (adminStep c) (mkAdmin false "" false)
            [ClickEditPrices; TypePin "0000"; ClickUnlock; ClickClose;
             ClickEditPrices; ClickUnlock]) = false.
Proof.
  intros c.
  refine (proj1 (pin_gate_holds c (mkAdmin false "" false)
                   [ClickEditPrices; TypePin "0000"; ClickUnlock; ClickClose;
                    ClickEditPrices; ClickUnlock] _ _ _ _ _)).
  - reflexivity.
  - discriminate.
  - reflexivity.
  - discriminate.
  - intros e He. repeat (destruct He as [<- | He]; [discriminate|]). destruct He.
Defined.

(** A PIN stored from the admin screen is never empty: an empty entry
    stores "1234". *)
Lemma setPin_never_empty (value : string) (c : Config) : pin (setPin value c) <> "".
Proof.
  unfold setPin. cbn [pin]. destruct (String.eqb value "") eqn:E; [discriminate|].
  now apply String.eqb_neq.
Qed.

(** ** The tabs and the pinned product *)

Lemma distinct_from_In (seen xs : list string) (x : string) :
  In x (distinct_from seen xs) <-> In x xs /\ ~ In x seen.
Proof.
  revert seen. induction xs as [|y xs IH]; intros seen; simpl; [tauto|].
  destruct (existsb (String.eqb y) seen) eqn:E.
  - apply existsb_exists in E. destruct E as (z & Hz & E).
    apply String.eqb_eq in E. subst z. rewrite IH.
    intuition congruence.
  - assert (~ In y seen) as Hy.
    { intros H. assert (existsb (String.eqb y) seen = true) as E'.
      { apply existsb_exists. exists y. split; [exact H|apply String.eqb_refl]. }
      congruence. }
    simpl. rewrite IH. simpl.
    destruct (String.eqb_spec y x) as [-> | Hne]; intuition congruence.
Qed.

Lemma distinct_from_NoDup (seen xs : list string) :
  NoDup (distinct_from seen xs).
Proof.
  revert seen. induction xs as [|y xs IH]; intros seen; simpl; [constructor|].
  destruct (existsb (String.eqb y) seen); [apply IH|].
  apply NoDup_cons. split; [|apply IH].
  intros H. apply list_elem_of_In, distinct_from_In in H.
  destruct H as [_ H]. apply H. now left.
Qed.

(** X20: the tabs are distinct, "Add-ons" is never one of them, and every other
    category that some product has is one. *)
Theorem categories_are_the_distinct_categories (c : Config) :
  NoDup (categories c)
  /\ ~ In "Add-ons" (categories c)
  /\ forall cat, In cat (categories c)
                 <-> cat <> "Add-ons"
                     /\ exists p, In p (products c) /\ Product.category p = cat.
Proof.
  assert (forall cat, In cat (categories c)
                      <-> cat <> "Add-ons"
                          /\ exists p, In p (products c)
                                       /\ Product.category p = cat) as Hin.
  { intros cat. unfold categories. rewrite filter_In, distinct_from_In.
    rewrite negb_true_iff, String.eqb_neq, in_map_iff. simpl. split.
    - intros [[(p & Hp & Hin) _] Hne]. eauto.
    - intros [Hne (p & Hin & Hp)]. split; [|exact Hne]. split; [eauto|tauto]. }
  split; [|split; [|exact Hin]].
  - unfold categories.
    rewrite <- (List.map_id (List.filter _ _)). apply NoDup_map_filter.
    rewrite List.map_id. apply distinct_from_NoDup.
  - intros H. apply Hin in H. now destruct H.
Qed.

(** X21: at most one product is pinned: the last product of the catalog with the
    id "p-mixer-charge"; none when no product has that id. *)
Theorem pinnedOnSpirits_is_the_mixer_charge (c : Config) :
  pinnedOnSpirits c
  = match lastWith (fun p => String.eqb (Product.id p) "p-mixer-charge")
            (products c) with
    | Some p => [p]
    | None => []
    end
  /\ (forall p, In p (pinnedOnSpirits c) ->
        In p (products c) /\ Product.id p = "p-mixer-charge")
  /\ (pinnedOnSpirits c = []
      <-> forall p, In p (products c) -> Product.id p <> "p-mixer-charge").
Proof.
  assert (pinnedOnSpirits c
          = match lastWith (fun p => String.eqb (Product.id p) "p-mixer-charge")
                    (products c) with
            | Some p => [p]
            | None => []
            end) as Heq.
  { unfold pinnedOnSpirits, productById. cbn [omap list_omap].
    rewrite byId_lookup. destruct (lastWith _ _); reflexivity. }
  split; [exact Heq|]. rewrite Heq. split.
  - intros p Hp.
    destruct (lastWith _ (products c)) as [p0|] eqn:E; [|destruct Hp].
    destruct Hp as [<- | []]. apply lastWith_Some in E.
    destruct E as (Hid & pre & post & -> & _).
    split; [apply in_app_iff; right; now left|now apply String.eqb_eq].
  - destruct (lastWith _ (products c)) as [p0|] eqn:E.
    + split; [discriminate|]. intros H. apply lastWith_Some in E.
      destruct E as (Hid & pre & post & Hps & _). apply String.eqb_eq in Hid.
      exfalso. apply (H p0); [|exact Hid].
      rewrite Hps. apply in_app_iff. right. now left.
    + split; [|reflexivity]. intros _ p Hp.
      apply String.eqb_neq. exact (proj1 (lastWith_None _ _) E p Hp).
Qed.

(** ** [clampInt] of [src/unnamed/part_000] *)

Ltac split_ltb :=
  repeat match goal with
         | |- context [?a <? ?b] => destruct (Z.ltb_spec a b)
         | H : context [?a <? ?b] |- _ => destruct (Z.ltb_spec a b)
         end.

(** X22: with [min <= max] the result lies between them, and is [n] itself when
    [n] does; with [min > max] the result is [min]; a NaN argument gives
    NaN. *)
Theorem clampInt_stays_in_range (n min max : number) :
  (n = NaN \/ min = NaN \/ max = NaN -> clampInt n min max = NaN)
  /\ (n <> NaN -> min <> NaN -> max <> NaN ->
      (num_le min max = true ->
       num_le min (clampInt n min max) = true
       /\ num_le (clampInt n min max) max = true
       /\ (num_le min n = true -> num_le n max = true ->
           clampInt n min max = n))
      /\ (num_lt max min = true -> clampInt n min max = min)).
Proof.
  split.
  - intros H. unfold clampInt, Math_max, Math_min.
    destruct n, min, max; cbn; try reflexivity;
      destruct H as [H | [H | H]]; discriminate.
  - intros Hn Hmin Hmax.
    destruct n as [| | |n]; [contradiction| | |];
      (destruct min as [| | |lo]; [contradiction| | |]);
      (destruct max as [| | |hi]; [contradiction| | |]);
      unfold clampInt, Math_max, Math_min; cbn;
      (split; [intros H|intros H]); try discriminate;
      split_ltb; cbn in *; try discriminate; try lia;
      repeat split; try intros; split_ltb; cbn in *;
      try reflexivity; try discriminate; try lia; try (f_equal; lia).
Qed.

Lemma clampInt_stays_in_range_witness :
  clampInt (Finite 12) (Finite 0) (Finite 9) = Finite 9
  /\ clampInt (Finite 5) (Finite 0) (Finite 9) = Finite 5.
Proof.
  pose proof (proj2 (clampInt_stays_in_range (Finite 5) (Finite 0) (Finite 9))
                ltac:(discriminate) ltac:(discriminate) ltac:(discriminate))
    as [H _].
  split; [reflexivity|]. apply (H eq_refl); reflexivity.
Defined.
